(** * Memora: capture coordinator and insight synchronizer

    A shallow embedding of the two React components of the repository:

    - [JournalInput]   (src/src/components/JournalInput.tsx): recording,
      transcription and submission of the journal text;
    - [InsightsDisplay] (the component embedded in src/README.md): the four
      collections, the edit cursor and the toggle / save / delete handlers.

    Component state ([useState], [useRef]) is a record.  What the components
    talk to (the store, the auth session, the edge functions, the toasts) is
    part of the modelled world, so that "no remote call", "a toast was shown"
    and "the record changed" are statements about values. *)

From Stdlib Require Import List String Ascii Bool Arith Lia.
Import ListNotations.
Open Scope string_scope.
Open Scope list_scope.

(** ** JavaScript strings

    A string is a sequence of code units; [ascii] covers the code units
    below 256, which is all the handlers inspect. *)
Module JS.

Local Open Scope string_scope.

(** Truthiness of a string: every string but the empty one. *)
Definition truthy (s : string) : bool :=
  match s with
  | EmptyString => false
  | String _ _ => true
  end.

(** [a || b] on strings. *)
Definition or_else (a b : string) : string :=
  if truthy a then a else b.

(** WhiteSpace and LineTerminator code units (ECMAScript 12.2, 12.3)
    below 256: TAB, LF, VT, FF, CR, SP, NBSP. *)
Definition is_white_space (c : ascii) : bool :=
  match nat_of_ascii c with
  | 9 | 10 | 11 | 12 | 13 | 32 | 160 => true
  | _ => false
  end.

Fixpoint trimStart (s : string) : string :=
  match s with
  | EmptyString => EmptyString
  | String c r => if is_white_space c then trimStart r else s
  end.

Fixpoint rev (s : string) : string :=
  match s with
  | EmptyString => EmptyString
  | String c r => rev r ++ String c EmptyString
  end.

Definition trimEnd (s : string) : string := rev (trimStart (rev s)).

(** [String.prototype.trim]. *)
Definition trim (s : string) : string := trimEnd (trimStart s).

(** "Empty or only whitespace". *)
Fixpoint blank (s : string) : bool :=
  match s with
  | EmptyString => true
  | String c r => is_white_space c && blank r
  end.

(** The line feed, and the separator of the template literal
    [`${prev}\n\n${data.text}`]. *)
Definition LF : string := String (ascii_of_nat 10) EmptyString.
Definition blank_line : string := LF ++ LF.

End JS.

(** ** The capture coordinator: [JournalInput.tsx] *)
Module JournalInput.

Import JS.

(** [toast.success] and [toast.error] of sonner. *)
Inductive Toast : Type :=
| ToastSuccess (message : string)
| ToastError (message : string).

(** Binary data: a recorded chunk, or the whole recording. *)
Definition Blob : Type := list Byte.byte.

(** [MediaRecorder.state], as far as the component drives it. *)
Inductive RecorderState : Type :=
| recording
| inactive.

(** What [supabase.functions.invoke] resolves to: [{ data, error }] with
    [error] set, or with [data] set, whose [text] may be missing. *)
Inductive InvokeResult : Type :=
| InvokeError (message : string)
| InvokeData (text : option string).

(** Requests that leave the component. *)
Inductive Call : Type :=
| GetUserMedia
| AuthGetUser
| InvokeTranscribe (audio : Blob)
| InvokeProcess (journalContent userId : string).

Record State : Type := mkState {
  content : string;
  (* useState: the journal text buffer *)
  processing : bool;
  (* useState: a submit is being processed *)
  isRecording : bool;
  (* useState *)
  isTranscribing : bool;
  (* useState *)
  mediaRecorderRef : option RecorderState;
  (* useRef: the last recorder made, if any *)
  audioChunksRef : list Blob;
  (* useRef: chunks in arrival order *)
  processed : nat;
  (* calls of the onProcessed prop so far *)
  toasts : list Toast;
  (* what toast has shown, oldest first *)
  calls : list Call;
  (* remote calls issued, oldest first *)
  openStreams : nat;
  (* microphone streams whose tracks still run *)
  stopping : nat;
  (* recorders stopped whose stop event is yet to fire *)
  readers : list Blob;
  (* FileReaders still loading *)
  transcribing : list Blob;
  (* transcribe-audio invocations awaiting a response *)
  authenticating : list string;
  (* submits suspended at auth.getUser(), with their content *)
  extracting : list (string * string)
  (* process-journal invocations awaiting a response *)
}.

(** Field updates; the [useState] setters keep their names. *)
Definition setContent (v : string) (s : State) : State :=
  mkState v (processing s) (isRecording s) (isTranscribing s)
    (mediaRecorderRef s) (audioChunksRef s) (processed s) (toasts s)
    (calls s) (openStreams s) (stopping s) (readers s) (transcribing s)
    (authenticating s) (extracting s).

Definition setProcessing (v : bool) (s : State) : State :=
  mkState (content s) v (isRecording s) (isTranscribing s)
    (mediaRecorderRef s) (audioChunksRef s) (processed s) (toasts s)
    (calls s) (openStreams s) (stopping s) (readers s) (transcribing s)
    (authenticating s) (extracting s).

Definition setIsRecording (v : bool) (s : State) : State :=
  mkState (content s) (processing s) v (isTranscribing s)
    (mediaRecorderRef s) (audioChunksRef s) (processed s) (toasts s)
    (calls s) (openStreams s) (stopping s) (readers s) (transcribing s)
    (authenticating s) (extracting s).

Definition setIsTranscribing (v : bool) (s : State) : State :=
  mkState (content s) (processing s) (isRecording s) v (mediaRecorderRef s)
    (audioChunksRef s) (processed s) (toasts s) (calls s) (openStreams s)
    (stopping s) (readers s) (transcribing s) (authenticating s)
    (extracting s).

Definition set_mediaRecorderRef (v : option RecorderState)
    (s : State) : State :=
  mkState (content s) (processing s) (isRecording s) (isTranscribing s) v
    (audioChunksRef s) (processed s) (toasts s) (calls s) (openStreams s)
    (stopping s) (readers s) (transcribing s) (authenticating s)
    (extracting s).

Definition set_audioChunksRef (v : list Blob) (s : State) : State :=
  mkState (content s) (processing s) (isRecording s) (isTranscribing s)
    (mediaRecorderRef s) v (processed s) (toasts s) (calls s)
    (openStreams s) (stopping s) (readers s) (transcribing s)
    (authenticating s) (extracting s).

Definition set_processed (v : nat) (s : State) : State :=
  mkState (content s) (processing s) (isRecording s) (isTranscribing s)
    (mediaRecorderRef s) (audioChunksRef s) v (toasts s) (calls s)
    (openStreams s) (stopping s) (readers s) (transcribing s)
    (authenticating s) (extracting s).

Definition set_toasts (v : list Toast) (s : State) : State :=
  mkState (content s) (processing s) (isRecording s) (isTranscribing s)
    (mediaRecorderRef s) (audioChunksRef s) (processed s) v (calls s)
    (openStreams s) (stopping s) (readers s) (transcribing s)
    (authenticating s) (extracting s).

Definition set_calls (v : list Call) (s : State) : State :=
  mkState (content s) (processing s) (isRecording s) (isTranscribing s)
    (mediaRecorderRef s) (audioChunksRef s) (processed s) (toasts s) v
    (openStreams s) (stopping s) (readers s) (transcribing s)
    (authenticating s) (extracting s).

Definition set_openStreams (v : nat) (s : State) : State :=
  mkState (content s) (processing s) (isRecording s) (isTranscribing s)
    (mediaRecorderRef s) (audioChunksRef s) (processed s) (toasts s)
    (calls s) v (stopping s) (readers s) (transcribing s) (authenticating s)
    (extracting s).

Definition set_stopping (v : nat) (s : State) : State :=
  mkState (content s) (processing s) (isRecording s) (isTranscribing s)
    (mediaRecorderRef s) (audioChunksRef s) (processed s) (toasts s)
    (calls s) (openStreams s) v (readers s) (transcribing s)
    (authenticating s) (extracting s).

Definition set_readers (v : list Blob) (s : State) : State :=
  mkState (content s) (processing s) (isRecording s) (isTranscribing s)
    (mediaRecorderRef s) (audioChunksRef s) (processed s) (toasts s)
    (calls s) (openStreams s) (stopping s) v (transcribing s)
    (authenticating s) (extracting s).

Definition set_transcribing (v : list Blob) (s : State) : State :=
  mkState (content s) (processing s) (isRecording s) (isTranscribing s)
    (mediaRecorderRef s) (audioChunksRef s) (processed s) (toasts s)
    (calls s) (openStreams s) (stopping s) (readers s) v (authenticating s)
    (extracting s).

Definition set_authenticating (v : list string) (s : State) : State :=
  mkState (content s) (processing s) (isRecording s) (isTranscribing s)
    (mediaRecorderRef s) (audioChunksRef s) (processed s) (toasts s)
    (calls s) (openStreams s) (stopping s) (readers s) (transcribing s) v
    (extracting s).

Definition set_extracting (v : list (string * string)) (s : State) : State :=
  mkState (content s) (processing s) (isRecording s) (isTranscribing s)
    (mediaRecorderRef s) (audioChunksRef s) (processed s) (toasts s)
    (calls s) (openStreams s) (stopping s) (readers s) (transcribing s)
    (authenticating s) v.

Notation "s |> f" := (f s) (at level 45, left associativity, only parsing).

Definition toast_success (m : string) (s : State) : State :=
  set_toasts (toasts s ++ [ToastSuccess m]) s.

Definition toast_error (m : string) (s : State) : State :=
  set_toasts (toasts s ++ [ToastError m]) s.

Definition call (c : Call) (s : State) : State :=
  set_calls (calls s ++ [c]) s.

(** Removal of the [i]-th pending operation. *)
Fixpoint remove_nth {A : Type} (i : nat) (l : list A) : list A :=
  match l, i with
  | [], _ => []
  | _ :: t, O => t
  | x :: t, S j => x :: remove_nth j t
  end.

(** The state at mount. *)
Definition initial : State :=
  mkState "" false false false None [] 0 [] [] 0 0 [] [] [] [].

(** *** Recording *)

(** [startRecording]; [granted] is how [getUserMedia] answers.  A refusal
    throws into the [catch]. *)
Definition startRecording (granted : bool) (s : State) : State :=
  let s := call GetUserMedia s in
  if granted then
    s |> set_openStreams (S (openStreams s))
      |> set_mediaRecorderRef (Some recording)
      |> set_audioChunksRef []
      |> setIsRecording true
      |> toast_success "Recording started"
  else
    s |> toast_error
           "Failed to start recording. Please check microphone permissions.".

(** [mediaRecorder.ondataavailable]. *)
Definition ondataavailable (data : Blob) (s : State) : State :=
  if Nat.ltb 0 (List.length data) then set_audioChunksRef (audioChunksRef s ++ [data]) s
  else s.

(** [stopRecording]: [mediaRecorderRef.current.stop()] leaves the recorder
    inactive and queues its [stop] event. *)
Definition stopRecording (s : State) : State :=
  match mediaRecorderRef s with
  | Some _ =>
      if isRecording s then
        s |> set_mediaRecorderRef (Some inactive)
          |> set_stopping (S (stopping s))
          |> setIsRecording false
      else s
  | None => s
  end.

(** *** Transcription *)

(** [transcribeAudio].  The [try] block creates the reader, starts the read
    and installs [reader.onloadend]; it awaits nothing and none of the three
    throws, so the [catch] is not entered and the [finally] runs before the
    function returns.  The service is called later, from [onloadend]. *)
Definition transcribeAudio (audioBlob : Blob) (s : State) : State :=
  let s := setIsTranscribing true s in
  let s := set_readers (readers s ++ [audioBlob]) s in
  setIsTranscribing false s.

(** [mediaRecorder.onstop]: the chunks become one blob, [transcribeAudio]
    is awaited, then the tracks of the stream are stopped. *)
Definition onstop (s : State) : State :=
  let audioBlob := List.concat (audioChunksRef s) in
  let s := transcribeAudio audioBlob s in
  set_openStreams (pred (openStreams s)) s.

(** [reader.onloadend], up to its [await]: the audio is sent to
    [transcribe-audio] (as the base64 text of the blob). *)
Definition onloadend (i : nat) (s : State) : State :=
  match nth_error (readers s) i with
  | None => s
  | Some audio =>
      s |> set_readers (remove_nth i (readers s))
        |> call (InvokeTranscribe audio)
        |> set_transcribing (transcribing s ++ [audio])
  end.

(** The functional update [prev => prev ? `${prev}\n\n${text}` : text]. *)
Definition appendTranscript (text prev : string) : string :=
  if truthy prev then (prev ++ blank_line ++ text)%string else text.

(** [reader.onloadend], from its [await] on.  [if (error) throw error]
    throws inside the callback, which nothing awaits and no [try] encloses:
    the callback ends there. *)
Definition onloadend_resume (i : nat) (r : InvokeResult) (s : State) : State :=
  match nth_error (transcribing s) i with
  | None => s
  | Some _ =>
      let s := set_transcribing (remove_nth i (transcribing s)) s in
      match r with
      | InvokeError _ => s
      | InvokeData None => s
      | InvokeData (Some text) =>
          if truthy text then
            s |> setContent (appendTranscript text (content s))
              |> toast_success "Transcription complete!"
          else s
      end
  end.

(** *** Submission *)

(** [handleSubmit], up to [await supabase.auth.getUser()]. *)
Definition handleSubmit (s : State) : State :=
  if negb (truthy (trim (content s))) then
    toast_error "Please write something in your journal" s
  else
    s |> setProcessing true
      |> call AuthGetUser
      |> set_authenticating (authenticating s ++ [content s]).

(** [handleSubmit], from the answer of [getUser] to the [await] of
    [process-journal]; a missing user returns through the [finally]. *)
Definition handleSubmit_user (i : nat) (user : option string) (s : State)
  : State :=
  match nth_error (authenticating s) i with
  | None => s
  | Some journal =>
      let s := set_authenticating (remove_nth i (authenticating s)) s in
      match user with
      | None =>
          s |> toast_error "Please sign in to continue"
            |> setProcessing false
      | Some uid =>
          s |> call (InvokeProcess journal uid)
            |> set_extracting (extracting s ++ [(journal, uid)])
      end
  end.

(** The [onProcessed] prop. *)
Definition onProcessed (s : State) : State :=
  set_processed (S (processed s)) s.

(** [handleSubmit], from the answer of [process-journal] on. *)
Definition handleSubmit_resume (i : nat) (r : InvokeResult) (s : State)
  : State :=
  match nth_error (extracting s) i with
  | None => s
  | Some _ =>
      let s := set_extracting (remove_nth i (extracting s)) s in
      match r with
      | InvokeError m =>
          s |> toast_error (or_else m "Failed to process journal entry")
            |> setProcessing false
      | InvokeData _ =>
          s |> toast_success "Journal processed! Your insights are ready."
            |> setContent ""
            |> onProcessed
            |> setProcessing false
      end
  end.

(** *** The rendered controls *)

(** [disabled] of the record button and of the submit button. *)
Definition micDisabled (s : State) : bool :=
  isTranscribing s || processing s.

Definition submitDisabled (s : State) : bool :=
  processing s || isRecording s || isTranscribing s.

(** What can happen to the mounted component: the user acts on a control,
    or something the component waits for arrives. *)
Inductive Event : Type :=
| Change (value : string)
| ClickMic (granted : bool)
| DataAvailable (data : Blob)
| RecorderStop
| ReaderLoadEnd (i : nat)
| TranscribeAnswer (i : nat) (r : InvokeResult)
| Submit
| UserAnswer (i : nat) (user : option string)
| ProcessAnswer (i : nat) (r : InvokeResult).

Definition step (s : State) (e : Event) : State :=
  match e with
  | Change value => setContent value s
  | ClickMic granted =>
      if micDisabled s then s
      else if isRecording s then stopRecording s
      else startRecording granted s
  | DataAvailable data =>
      match mediaRecorderRef s with
      | Some _ => ondataavailable data s
      | None => s
      end
  | RecorderStop =>
      match stopping s with
      | O => s
      | S n => onstop (set_stopping n s)
      end
  | ReaderLoadEnd i => onloadend i s
  | TranscribeAnswer i r => onloadend_resume i r s
  | Submit => if submitDisabled s then s else handleSubmit s
  | UserAnswer i user => handleSubmit_user i user s
  | ProcessAnswer i r => handleSubmit_resume i r s
  end.

Definition run (s : State) (es : list Event) : State := fold_left step es s.

(** States the component can be in. *)
Inductive reachable : State -> Prop :=
| reachable_initial : reachable initial
| reachable_step s e : reachable s -> reachable (step s e).

(** A transcription is in flight from the [stop] of the recorder to the
    answer of the service; a submit from [handleSubmit] passing its check
    to the answer of [process-journal]. *)
Definition transcriptionsInFlight (s : State) : nat :=
  stopping s + List.length (readers s) + List.length (transcribing s).

Definition submitsInFlight (s : State) : nat :=
  List.length (authenticating s) + List.length (extracting s).

(** Whether a toast is one of the error kind. *)
Definition isError (t : Toast) : bool :=
  match t with
  | ToastError _ => true
  | ToastSuccess _ => false
  end.

(** A submit is in flight exactly while [processing] is set, and then
    there is one. *)
Definition submit_invariant (s : State) : Prop :=
  submitsInFlight s = if processing s then 1 else 0.


(** The [process-journal] invocations among some calls. *)
Definition isProcessCall (c : Call) : bool :=
  match c with
  | InvokeProcess _ _ => true
  | _ => false
  end.

Definition processCalls (cs : list Call) : nat :=
  List.length (filter isProcessCall cs).

(** Chunks that [ondataavailable] keeps. *)
Definition nonempty (b : Blob) : bool := Nat.ltb 0 (List.length b).

End JournalInput.

(** ** The insight synchronizer: [InsightsDisplay] *)
Module InsightsDisplay.

Import JS.

(** *** Rows

    The interfaces [Task], [CalendarEvent], [Note] and [HealthMention],
    with the columns the queries of [fetchData] name besides them
    ([user_id], [created_at]): [select("*")] delivers whole rows. *)
Record Task : Type := mkTask {
  task_id : string;
  task_title : string;
  task_completed : bool;
  task_priority : string;
  task_user_id : string;
  task_created_at : string
}.

Definition set_task_title (v : string) (r : Task) : Task :=
  mkTask (task_id r) v (task_completed r) (task_priority r) (task_user_id r)
    (task_created_at r).

Definition set_task_completed (v : bool) (r : Task) : Task :=
  mkTask (task_id r) (task_title r) v (task_priority r) (task_user_id r)
    (task_created_at r).

Record CalendarEvent : Type := mkCalendarEvent {
  event_id : string;
  event_title : string;
  event_date : option string;
  event_time : option string;
  event_user_id : string
}.

Definition set_event_title (v : string) (r : CalendarEvent) : CalendarEvent :=
  mkCalendarEvent (event_id r) v (event_date r) (event_time r)
    (event_user_id r).

Record Note : Type := mkNote {
  note_id : string;
  note_content : string;
  note_created_at : string;
  note_user_id : string
}.

Definition set_note_content (v : string) (r : Note) : Note :=
  mkNote (note_id r) v (note_created_at r) (note_user_id r).

Record HealthMention : Type := mkHealthMention {
  health_id : string;
  health_content : string;
  health_created_at : string;
  health_user_id : string
}.

Definition set_health_content (v : string)
    (r : HealthMention) : HealthMention :=
  mkHealthMention (health_id r) v (health_created_at r) (health_user_id r).

(** What every table offers to the filters [eq("id", _)] and
    [eq("user_id", _)]. *)
Class Row (R : Type) : Type := {
  row_id : R -> string;
  row_user_id : R -> string
}.

#[export] Instance Row_Task : Row Task :=
  {| row_id := task_id; row_user_id := task_user_id |}.
#[export] Instance Row_CalendarEvent : Row CalendarEvent :=
  {| row_id := event_id; row_user_id := event_user_id |}.
#[export] Instance Row_Note : Row Note :=
  {| row_id := note_id; row_user_id := note_user_id |}.
#[export] Instance Row_HealthMention : Row HealthMention :=
  {| row_id := health_id; row_user_id := health_user_id |}.

(** *** The store: four tables *)
Record Store : Type := mkStore {
  tasks_table : list Task;
  calendar_events_table : list CalendarEvent;
  notes_table : list Note;
  health_mentions_table : list HealthMention
}.

Definition set_tasks_table (v : list Task) (d : Store) : Store :=
  mkStore v (calendar_events_table d) (notes_table d)
    (health_mentions_table d).

Definition set_calendar_events_table (v : list CalendarEvent)
    (d : Store) : Store :=
  mkStore (tasks_table d) v (notes_table d) (health_mentions_table d).

Definition set_notes_table (v : list Note) (d : Store) : Store :=
  mkStore (tasks_table d) (calendar_events_table d) v
    (health_mentions_table d).

Definition set_health_mentions_table (v : list HealthMention) (d : Store) : Store :=
  mkStore (tasks_table d) (calendar_events_table d) (notes_table d) v.

(** The object given to [update]. *)
Inductive Values : Type :=
| Completed (completed : bool)
| Title (title : string)
| Content (content : string).

(** Requests of the component: [auth.getUser()], and on [from(table)]
    [select("*").eq("user_id", _).order(column, {ascending})[.limit(n)]],
    [update(values).eq("id", _)] and [delete().eq("id", _)]. *)
Inductive Call : Type :=
| AuthGetUser
| Select (table user_id column : string) (ascending : bool)
    (limit : option nat)
| Update (table : string) (values : Values) (id : string)
| Delete (table : string) (id : string).

(** The [data] of a [select]. *)
Inductive Rows : Type :=
| TaskRows (l : list Task)
| EventRows (l : list CalendarEvent)
| NoteRows (l : list Note)
| HealthRows (l : list HealthMention).

Section Tables.

Context {R : Type} `{Row R}.

Definition has_id (id : string) (r : R) : bool := String.eqb (row_id r) id.

Definition owned_by (user : string) (r : R) : bool :=
  String.eqb (row_user_id r) user.

(** [update(values).eq("id", id)]: every row with that id is changed. *)
Definition update_where_id (id : string) (f : R -> R) (l : list R) : list R :=
  map (fun r => if has_id id r then f r else r) l.

(** [delete().eq("id", id)]: every row with that id goes. *)
Definition delete_where_id (id : string) (l : list R) : list R :=
  filter (fun r => negb (has_id id r)) l.

(** Order of a column that may be null: nulls are largest, so they come
    last ascending and first descending. *)
Definition key_le (a b : option string) : bool :=
  match a, b with
  | _, None => true
  | None, Some _ => false
  | Some x, Some y => String.leb x y
  end.

Definition row_le (key : R -> option string) (ascending : bool) (a b : R)
  : bool :=
  if ascending then key_le (key a) (key b) else key_le (key b) (key a).

Fixpoint insert_row (le : R -> R -> bool) (x : R) (l : list R) : list R :=
  match l with
  | [] => [x]
  | y :: t => if le x y then x :: l else y :: insert_row le x t
  end.

Definition sort_rows (le : R -> R -> bool) (l : list R) : list R :=
  fold_right (insert_row le) [] l.

Definition limit_rows (limit : option nat) (l : list R) : list R :=
  match limit with
  | Some n => firstn n l
  | None => l
  end.

(** [select("*").eq("user_id", user).order(..)[.limit(..)]]. *)
Definition select_where_user (user : string) (key : R -> option string)
    (ascending : bool) (limit : option nat) (l : list R) : list R :=
  limit_rows limit (sort_rows (row_le key ascending) (filter (owned_by user) l)).

End Tables.

(** The text columns of each table a query can order by. *)
Definition task_column (c : string) : option (Task -> option string) :=
  if String.eqb c "created_at" then Some (fun r => Some (task_created_at r))
  else if String.eqb c "title" then Some (fun r => Some (task_title r))
  else if String.eqb c "priority" then Some (fun r => Some (task_priority r))
  else None.

Definition event_column (c : string)
  : option (CalendarEvent -> option string) :=
  if String.eqb c "event_date" then Some event_date
  else if String.eqb c "event_time" then Some event_time
  else if String.eqb c "title" then Some (fun r => Some (event_title r))
  else None.

Definition note_column (c : string) : option (Note -> option string) :=
  if String.eqb c "created_at" then Some (fun r => Some (note_created_at r))
  else if String.eqb c "content" then Some (fun r => Some (note_content r))
  else None.

Definition health_column (c : string)
  : option (HealthMention -> option string) :=
  if String.eqb c "created_at" then Some (fun r => Some (health_created_at r))
  else if String.eqb c "content" then Some (fun r => Some (health_content r))
  else None.

(** The columns of each table an [update] of the component can write. *)
Definition task_values (v : Values) : option (Task -> Task) :=
  match v with
  | Completed b => Some (set_task_completed b)
  | Title t => Some (set_task_title t)
  | Content _ => None
  end.

Definition event_values (v : Values)
  : option (CalendarEvent -> CalendarEvent) :=
  match v with
  | Title t => Some (set_event_title t)
  | _ => None
  end.

Definition note_values (v : Values) : option (Note -> Note) :=
  match v with
  | Content c => Some (set_note_content c)
  | _ => None
  end.

Definition health_values (v : Values)
  : option (HealthMention -> HealthMention) :=
  match v with
  | Content c => Some (set_health_content c)
  | _ => None
  end.

(** What the store does with each request; [None] is an error answer
    (no such table, no such column). *)
Definition store_select (table user column : string) (ascending : bool)
    (limit : option nat) (d : Store) : option Rows :=
  if String.eqb table "tasks" then
    option_map (fun key => TaskRows
      (select_where_user user key ascending limit (tasks_table d)))
      (task_column column)
  else if String.eqb table "calendar_events" then
    option_map (fun key => EventRows
      (select_where_user user key ascending limit (calendar_events_table d)))
      (event_column column)
  else if String.eqb table "notes" then
    option_map (fun key => NoteRows
      (select_where_user user key ascending limit (notes_table d)))
      (note_column column)
  else if String.eqb table "health_mentions" then
    option_map (fun key => HealthRows
      (select_where_user user key ascending limit (health_mentions_table d)))
      (health_column column)
  else None.

Definition store_update (table : string) (values : Values) (id : string)
    (d : Store) : option Store :=
  if String.eqb table "tasks" then
    option_map (fun f =>
      set_tasks_table (update_where_id id f (tasks_table d)) d)
      (task_values values)
  else if String.eqb table "calendar_events" then
    option_map (fun f =>
      set_calendar_events_table
        (update_where_id id f (calendar_events_table d)) d)
      (event_values values)
  else if String.eqb table "notes" then
    option_map (fun f =>
      set_notes_table (update_where_id id f (notes_table d)) d)
      (note_values values)
  else if String.eqb table "health_mentions" then
    option_map (fun f =>
      set_health_mentions_table
        (update_where_id id f (health_mentions_table d)) d)
      (health_values values)
  else None.

Definition store_delete (table id : string) (d : Store) : option Store :=
  if String.eqb table "tasks" then
    Some (set_tasks_table (delete_where_id id (tasks_table d)) d)
  else if String.eqb table "calendar_events" then
    Some (set_calendar_events_table
            (delete_where_id id (calendar_events_table d)) d)
  else if String.eqb table "notes" then
    Some (set_notes_table (delete_where_id id (notes_table d)) d)
  else if String.eqb table "health_mentions" then
    Some (set_health_mentions_table
            (delete_where_id id (health_mentions_table d)) d)
  else None.

(** *** The component and its surroundings *)

(** [toast({ title })] and [toast({ title, variant: "destructive" })]. *)
Record Toast : Type := mkToast {
  title : string;
  destructive : bool
}.

Record World : Type := mkWorld {
  tasks : list Task;
  (* useState([]) *)
  events : list CalendarEvent;
  (* useState([]) *)
  notes : list Note;
  (* useState([]) *)
  health : list HealthMention;
  (* useState([]) *)
  editingId : option string;
  (* useState(null) *)
  editingType : option string;
  (* useState(null) *)
  editValue : string;
  (* useState('') *)
  toasts : list Toast;
  (* what toast has shown, oldest first *)
  db : Store;
  (* the rows the store holds *)
  session : option string;
  (* the id of the signed-in user, if any *)
  faults : list bool;
  (* whether the coming store requests fail, in order; none fails once the list is used up *)
  log : list Call
  (* requests issued, oldest first *)
}.

Definition setTasks (v : list Task) (w : World) : World :=
  mkWorld v (events w) (notes w) (health w) (editingId w) (editingType w)
    (editValue w) (toasts w) (db w) (session w) (faults w) (log w).

Definition setEvents (v : list CalendarEvent) (w : World) : World :=
  mkWorld (tasks w) v (notes w) (health w) (editingId w) (editingType w)
    (editValue w) (toasts w) (db w) (session w) (faults w) (log w).

Definition setNotes (v : list Note) (w : World) : World :=
  mkWorld (tasks w) (events w) v (health w) (editingId w) (editingType w)
    (editValue w) (toasts w) (db w) (session w) (faults w) (log w).

Definition setHealth (v : list HealthMention) (w : World) : World :=
  mkWorld (tasks w) (events w) (notes w) v (editingId w) (editingType w)
    (editValue w) (toasts w) (db w) (session w) (faults w) (log w).

Definition setEditingId (v : option string) (w : World) : World :=
  mkWorld (tasks w) (events w) (notes w) (health w) v (editingType w)
    (editValue w) (toasts w) (db w) (session w) (faults w) (log w).

Definition setEditingType (v : option string) (w : World) : World :=
  mkWorld (tasks w) (events w) (notes w) (health w) (editingId w) v
    (editValue w) (toasts w) (db w) (session w) (faults w) (log w).

Definition setEditValue (v : string) (w : World) : World :=
  mkWorld (tasks w) (events w) (notes w) (health w) (editingId w)
    (editingType w) v (toasts w) (db w) (session w) (faults w) (log w).

Definition set_toasts (v : list Toast) (w : World) : World :=
  mkWorld (tasks w) (events w) (notes w) (health w) (editingId w)
    (editingType w) (editValue w) v (db w) (session w) (faults w) (log w).

Definition set_db (v : Store) (w : World) : World :=
  mkWorld (tasks w) (events w) (notes w) (health w) (editingId w)
    (editingType w) (editValue w) (toasts w) v (session w) (faults w)
    (log w).

Definition set_session (v : option string) (w : World) : World :=
  mkWorld (tasks w) (events w) (notes w) (health w) (editingId w)
    (editingType w) (editValue w) (toasts w) (db w) v (faults w) (log w).

Definition set_faults (v : list bool) (w : World) : World :=
  mkWorld (tasks w) (events w) (notes w) (health w) (editingId w)
    (editingType w) (editValue w) (toasts w) (db w) (session w) v (log w).

Definition set_log (v : list Call) (w : World) : World :=
  mkWorld (tasks w) (events w) (notes w) (health w) (editingId w)
    (editingType w) (editValue w) (toasts w) (db w) (session w) (faults w)
    v.

(** Handlers run in a state monad over [World]. *)
Definition M (A : Type) : Type := World -> A * World.

Definition ret {A : Type} (a : A) : M A := fun w => (a, w).

Definition bind {A B : Type} (m : M A) (k : A -> M B) : M B :=
  fun w => let (a, w') := m w in k a w'.

Definition get {A : Type} (f : World -> A) : M A := fun w => (f w, w).

Definition modify (f : World -> World) : M unit := fun w => (tt, f w).

Definition exec {A : Type} (m : M A) (w : World) : World := snd (m w).

Notation "x <- m ;; k" := (bind m (fun x => k))
  (at level 61, m at next level, right associativity).
Notation "m ;; k" := (bind m (fun _ => k))
  (at level 61, right associativity).

Definition toast (t : string) (d : bool) : M unit :=
  modify (fun w => set_toasts (toasts w ++ [mkToast t d]) w).

Definition request (c : Call) : M unit :=
  modify (fun w => set_log (log w ++ [c]) w).

(** Whether the request now issued fails on its way. *)
Definition fault : M bool :=
  fun w =>
    match faults w with
    | [] => (false, w)
    | b :: rest => (b, set_faults rest w)
    end.

(** [supabase.auth.getUser()], its [data.user]. *)
Definition getUser : M (option string) :=
  request AuthGetUser ;; get session.

(** A [select] request; the result is its [data], null on error. *)
Definition select (table user column : string) (ascending : bool)
    (limit : option nat) : M (option Rows) :=
  request (Select table user column ascending limit) ;;
  failed <- fault ;;
  if failed then ret None
  else d <- get db ;; ret (store_select table user column ascending limit d).

(** An [update] request; the result is whether [error] is set. *)
Definition update (table : string) (values : Values) (id : string) : M bool :=
  request (Update table values id) ;;
  failed <- fault ;;
  if failed then ret true
  else
    d <- get db ;;
    match store_update table values id d with
    | Some d' => modify (set_db d') ;; ret false
    | None => ret true
    end.

(** A [delete] request; the result is whether [error] is set. *)
Definition delete (table id : string) : M bool :=
  request (Delete table id) ;;
  failed <- fault ;;
  if failed then ret true
  else
    d <- get db ;;
    match store_delete table id d with
    | Some d' => modify (set_db d') ;; ret false
    | None => ret true
    end.

(** *** The handlers *)

(** [fetchData]. [Promise.all] issues the four queries in the order of
    its array; each [if (x.data) setX(x.data)] skips a failed query. *)
Definition fetchData : M unit :=
  user <- getUser ;;
  match user with
  | None => ret tt
  | Some uid =>
      tasksData <- select "tasks" uid "created_at" false None ;;
      eventsData <- select "calendar_events" uid "event_date" true None ;;
      notesData <- select "notes" uid "created_at" false (Some 10) ;;
      healthData <- select "health_mentions" uid "created_at" false (Some 10) ;;
      match tasksData with
      | Some (TaskRows l) => modify (setTasks l)
      | _ => ret tt
      end ;;
      match eventsData with
      | Some (EventRows l) => modify (setEvents l)
      | _ => ret tt
      end ;;
      match notesData with
      | Some (NoteRows l) => modify (setNotes l)
      | _ => ret tt
      end ;;
      match healthData with
      | Some (HealthRows l) => modify (setHealth l)
      | _ => ret tt
      end
  end.

(** [toggleTask]: the result of the update is not looked at. *)
Definition toggleTask (taskId : string) (completed : bool) : M unit :=
  update "tasks" (Completed (negb completed)) taskId ;;
  fetchData.

Definition startEdit (id type currentValue : string) : M unit :=
  modify (setEditingId (Some id)) ;;
  modify (setEditingType (Some type)) ;;
  modify (setEditValue currentValue).

Definition cancelEdit : M unit :=
  modify (setEditingId None) ;;
  modify (setEditingType None) ;;
  modify (setEditValue "").

(** [!x] for [x : string | null]. *)
Definition falsy (x : option string) : bool :=
  match x with
  | Some s => negb (truthy s)
  | None => true
  end.

(** The branches of [saveEdit] on [editingType], each with its request;
    the result is whether [error] is set, and it stays undefined when no
    branch matches. *)
Definition saveEdit_request (editingType editValue editingId : string)
  : M bool :=
  if String.eqb editingType "tasks" then
    update "tasks" (Title editValue) editingId
  else if String.eqb editingType "calendar_events" then
    update "calendar_events" (Title editValue) editingId
  else if String.eqb editingType "notes" then
    update "notes" (Content editValue) editingId
  else if String.eqb editingType "health_mentions" then
    update "health_mentions" (Content editValue) editingId
  else ret false.

(** [saveEdit]: [if (error) throw error] lands in the [catch]. *)
Definition saveEdit : M unit :=
  id <- get editingId ;;
  type <- get editingType ;;
  value <- get editValue ;;
  if falsy id || falsy type then ret tt
  else
    match id, type with
    | Some editingId, Some editingType =>
        error <- saveEdit_request editingType value editingId ;;
        if error then toast "Failed to update" true
        else
          toast "Updated successfully" false ;;
          cancelEdit ;;
          fetchData
    | _, _ => ret tt
    end.

(** The type of the second argument of [deleteItem]. *)
Inductive ItemType : Type :=
| tasks_type
| calendar_events_type
| notes_type
| health_mentions_type.

Definition deleteItem (id : string) (type : ItemType) : M unit :=
  error <-
    match type with
    | tasks_type => delete "tasks" id
    | calendar_events_type => delete "calendar_events" id
    | notes_type => delete "notes" id
    | health_mentions_type => delete "health_mentions" id
    end ;;
  if error then toast "Failed to delete" true
  else
    toast "Deleted successfully" false ;;
    fetchData.

(** What the checkbox of a rendered task calls. *)
Definition onCheckedChange (task : Task) : M unit :=
  toggleTask (task_id task) (task_completed task).

(** *** Vocabulary of the specification *)

(** The edit cursor. *)
Inductive Cursor : Type :=
| NoCursor
| Editing (kind id buffer : string).

Definition cursor (w : World) : Cursor :=
  match editingType w, editingId w with
  | Some kind, Some id => Editing kind id (editValue w)
  | _, _ => NoCursor
  end.

(** The four kinds of record, as [editingType] names them. *)
Definition kinds : list string :=
  ["tasks"; "calendar_events"; "notes"; "health_mentions"].

(** The mutating operations, as the user can invoke them. *)
Inductive Mutation : Type :=
| ToggleTask (taskId : string) (completed : bool)
| SaveEdit
| DeleteItem (id : string) (type : ItemType).

Definition mutate (m : Mutation) : M unit :=
  match m with
  | ToggleTask taskId completed => toggleTask taskId completed
  | SaveEdit => saveEdit
  | DeleteItem id type => deleteItem id type
  end.

(** The record id a mutating operation names in its request. *)
Definition target (m : Mutation) (w : World) : option string :=
  match m with
  | ToggleTask taskId _ => Some taskId
  | SaveEdit => editingId w
  | DeleteItem id _ => Some id
  end.

(** The rows of the store outside the scope of [user]. *)
Definition foreign {R : Type} `{Row R} (user : string) (l : list R) : list R :=
  filter (fun r => negb (owned_by user r)) l.

Definition foreign_rows (user : string) (d : Store) : Store :=
  mkStore (foreign user (tasks_table d))
          (foreign user (calendar_events_table d))
          (foreign user (notes_table d))
          (foreign user (health_mentions_table d)).

(** The rows of the store whose id is not [id]. *)
Definition other_rows (id : string) (d : Store) : Store :=
  mkStore (delete_where_id id (tasks_table d))
          (delete_where_id id (calendar_events_table d))
          (delete_where_id id (notes_table d))
          (delete_where_id id (health_mentions_table d)).

(** The four queries of one full reload for [uid]. *)
Definition reload (uid : string) : list Call :=
  [ Select "tasks" uid "created_at" false None;
    Select "calendar_events" uid "event_date" true None;
    Select "notes" uid "created_at" false (Some 10);
    Select "health_mentions" uid "created_at" false (Some 10) ].

(** The world once a request has left: logged, one fault used up. *)
Definition after_request (c : Call) (w : World) : World :=
  set_faults (tl (faults w)) (set_log (log w ++ [c]) w).

(** The component once all four queries of a reload for [uid] have
    answered from the store [d]. *)
Definition loaded (uid : string) (d : Store) (w : World) : World :=
  setHealth
    (select_where_user uid (fun r => Some (health_created_at r)) false
       (Some 10) (health_mentions_table d))
    (setNotes
       (select_where_user uid (fun r => Some (note_created_at r)) false
          (Some 10) (notes_table d))
       (setEvents
          (select_where_user uid event_date true None
             (calendar_events_table d))
          (setTasks
             (select_where_user uid (fun r => Some (task_created_at r))
                false None (tasks_table d))
             w))).

(** Whether every row named [id] is in the scope of [user]. *)
Definition scoped {R : Type} `{Row R} (user id : string) (l : list R) : bool :=
  forallb (fun r => implb (has_id id r) (owned_by user r)) l.

Definition in_scope (user id : string) (d : Store) : bool :=
  scoped user id (tasks_table d)
  && scoped user id (calendar_events_table d)
  && scoped user id (notes_table d)
  && scoped user id (health_mentions_table d).

(** A relation between the store after and before that requests by
    [id] keep. *)
Definition respected (P : Store -> Store -> Prop) (id : string) : Prop :=
  (forall d, P d d)
  /\ (forall table v d d', store_update table v id d = Some d' -> P d' d)
  /\ (forall table d d', store_delete table id d = Some d' -> P d' d).


(** [getPriorityColor]: the [switch] compares with [===]. *)
Definition getPriorityColor (priority : string) : string :=
  if String.eqb priority "high" then "bg-accent text-accent-foreground"
  else if String.eqb priority "medium" then "bg-primary/20 text-primary"
  else if String.eqb priority "low" then "bg-muted text-muted-foreground"
  else "bg-muted text-muted-foreground".

(** *** What is rendered *)

(** The table name each panel passes to [startEdit] and [deleteItem]. *)
Definition type_name (type : ItemType) : string :=
  match type with
  | tasks_type => "tasks"
  | calendar_events_type => "calendar_events"
  | notes_type => "notes"
  | health_mentions_type => "health_mentions"
  end.

(** The rows of a panel, each with its id and the text its Edit button
    hands to [startEdit]: the title of a task or an event, the content of
    a note or a health mention. *)
Definition panel (w : World) (type : ItemType) : list (string * string) :=
  match type with
  | tasks_type => map (fun r => (task_id r, task_title r)) (tasks w)
  | calendar_events_type =>
      map (fun r => (event_id r, event_title r)) (events w)
  | notes_type => map (fun r => (note_id r, note_content r)) (notes w)
  | health_mentions_type =>
      map (fun r => (health_id r, health_content r)) (health w)
  end.

(** [x === v] for [x : string | null]. *)
Definition strictEq (x : option string) (v : string) : bool :=
  match x with
  | Some s => String.eqb s v
  | None => false
  end.

(** A row shows its editor (input, Save, Cancel) in place of its text
    when [editingId === row.id && editingType === "<table>"], and its
    Edit and Delete buttons when [editingId !== row.id]. *)
Definition showsEditor (w : World) (type : ItemType) (id : string) : bool :=
  strictEq (editingId w) id && strictEq (editingType w) (type_name type).

Definition showsButtons (w : World) (id : string) : bool :=
  negb (strictEq (editingId w) id).

(** Whether some row of some panel shows its editor. *)
Definition editorVisible (w : World) : bool :=
  existsb
    (fun type => existsb (fun row => showsEditor w type (fst row))
                   (panel w type))
    [tasks_type; calendar_events_type; notes_type; health_mentions_type].

(** What can happen to the mounted component: the effect on
    [refreshTrigger] runs, the user acts on a control that is rendered,
    or the world around the component moves (other clients write the
    store, the user signs in or out, requests start or stop failing). *)
Inductive Action : Type :=
| Refresh
| ClickCheckbox (n : nat)
| ClickEdit (type : ItemType) (n : nat)
| ClickDelete (type : ItemType) (n : nat)
| TypeInEditor (value : string)
| ClickSave
| ClickCancel
| Around (d : Store) (user : option string) (fs : list bool).

Definition act (w : World) (a : Action) : World :=
  match a with
  | Refresh => exec fetchData w
  | ClickCheckbox n =>
      match nth_error (tasks w) n with
      | Some task => exec (onCheckedChange task) w
      | None => w
      end
  | ClickEdit type n =>
      match nth_error (panel w type) n with
      | Some (id, text) =>
          if showsButtons w id then exec (startEdit id (type_name type) text) w
          else w
      | None => w
      end
  | ClickDelete type n =>
      match nth_error (panel w type) n with
      | Some (id, _) =>
          if showsButtons w id then exec (deleteItem id type) w else w
      | None => w
      end
  | TypeInEditor value =>
      if editorVisible w then setEditValue value w else w
  | ClickSave => if editorVisible w then exec saveEdit w else w
  | ClickCancel => if editorVisible w then exec cancelEdit w else w
  | Around d user fs => set_faults fs (set_session user (set_db d w))
  end.

(** The component at mount, before its effect has run. *)
Definition mounted (d : Store) (user : option string) (fs : list bool)
  : World :=
  mkWorld [] [] [] [] None None "" [] d user fs [].

Inductive attainable : World -> Prop :=
| attainable_mounted d user fs : attainable (mounted d user fs)
| attainable_act w a : attainable w -> attainable (act w a).

(** The three pieces of the cursor, as one value. *)
Definition pieces (w : World) : option string * option string * string :=
  (editingId w, editingType w, editValue w).

(** The three pieces of the cursor move together: all unset, with an
    empty buffer, or id and type set, the type one of the four tables. *)
Definition cursor_consistent (w : World) : Prop :=
  (editingId w = None /\ editingType w = None /\ editValue w = "")
  \/ (exists id type,
        editingId w = Some id /\ editingType w = Some (type_name type)).

(** The values [saveEdit] sends for each of the four kinds. *)
Definition edited_values (type : ItemType) (value : string) : Values :=
  match type with
  | tasks_type | calendar_events_type => Title value
  | notes_type | health_mentions_type => Content value
  end.

(** The store once the rows of [id] of a kind carry [value] as text. *)
Definition store_edited (type : ItemType) (value id : string) (d : Store)
  : Store :=
  match type with
  | tasks_type =>
      set_tasks_table
        (update_where_id id (set_task_title value) (tasks_table d)) d
  | calendar_events_type =>
      set_calendar_events_table
        (update_where_id id (set_event_title value)
           (calendar_events_table d)) d
  | notes_type =>
      set_notes_table
        (update_where_id id (set_note_content value) (notes_table d)) d
  | health_mentions_type =>
      set_health_mentions_table
        (update_where_id id (set_health_content value)
           (health_mentions_table d)) d
  end.

End InsightsDisplay.
(** ** Facts about [trim] *)
Module JSFacts.

Import JS.
Local Open Scope string_scope.

Lemma trimStart_blank (s : string) : blank s = true -> trimStart s = "".
Proof.
  induction s as [|c r IH]; simpl; [reflexivity|].
  intros H. apply andb_true_iff in H as [Hc Hr]. rewrite Hc. auto.
Qed.

Lemma trimStart_empty_blank (s : string) : trimStart s = "" -> blank s = true.
Proof.
  induction s as [|c r IH]; simpl; [reflexivity|].
  destruct (is_white_space c); simpl; [exact IH | discriminate].
Qed.

Lemma append_empty_r (s : string) : s ++ "" = s.
Proof. induction s as [|c r IH]; simpl; congruence. Qed.

Lemma append_assoc (a b c : string) : (a ++ b) ++ c = a ++ (b ++ c).
Proof. induction a as [|x r IH]; simpl; congruence. Qed.

Lemma rev_append (a b : string) : rev (a ++ b) = rev b ++ rev a.
Proof.
  induction a as [|x r IH]; simpl.
  - now rewrite append_empty_r.
  - now rewrite IH, append_assoc.
Qed.

Lemma rev_involutive (s : string) : rev (rev s) = s.
Proof.
  induction s as [|c r IH]; simpl; [reflexivity|].
  now rewrite rev_append, IH.
Qed.

Lemma rev_empty (s : string) : rev s = "" -> s = "".
Proof.
  intros H. rewrite <- (rev_involutive s), H. reflexivity.
Qed.

Lemma blank_append (a b : string) :
  blank (a ++ b) = blank a && blank b.
Proof.
  induction a as [|x r IH]; simpl; [reflexivity|].
  now rewrite IH, andb_assoc.
Qed.

Lemma blank_rev (s : string) : blank (rev s) = blank s.
Proof.
  induction s as [|c r IH]; simpl; [reflexivity|].
  rewrite blank_append, IH. simpl.
  rewrite andb_true_r. apply andb_comm.
Qed.

(** A string that [trimStart] leaves non-empty starts with a character
    that is not whitespace, so it is not blank. *)
Lemma trimStart_fixed (s : string) :
  trimStart s = "" \/ blank (trimStart s) = false.
Proof.
  induction s as [|c r IH]; simpl; [now left|].
  destruct (is_white_space c) eqn:E; [exact IH|].
  right. simpl. now rewrite E.
Qed.

(** [trim] yields the empty string exactly on blank strings. *)
Lemma trim_empty_iff (s : string) : trim s = "" <-> blank s = true.
Proof.
  unfold trim, trimEnd. split.
  - intros H. apply rev_empty in H. apply trimStart_empty_blank in H.
    rewrite blank_rev in H.
    destruct (trimStart_fixed s) as [E|E]; [|congruence].
    now apply trimStart_empty_blank.
  - intros H. now rewrite (trimStart_blank s H).
Qed.

Lemma truthy_trim (s : string) : truthy (trim s) = negb (blank s).
Proof.
  destruct (blank s) eqn:E.
  - apply trim_empty_iff in E. now rewrite E.
  - destruct (trim s) eqn:T; [|reflexivity].
    apply trim_empty_iff in T. congruence.
Qed.

End JSFacts.

(** ** Properties of the capture coordinator *)
Module JournalInputFacts.

Import JS JSFacts JournalInput.

(** *** Pending operations *)

Lemma nth_error_last {A : Type} (l : list A) (x : A) :
  nth_error (l ++ [x]) (List.length l) = Some x.
Proof. induction l as [|y t IH]; simpl; auto. Qed.

Lemma remove_nth_last {A : Type} (l : list A) (x : A) :
  remove_nth (List.length l) (l ++ [x]) = l.
Proof. induction l as [|y t IH]; simpl; congruence. Qed.

Lemma remove_nth_length {A : Type} (i : nat) (l : list A) (x : A) :
  nth_error l i = Some x -> S (List.length (remove_nth i l)) = List.length l.
Proof.
  revert i. induction l as [|y t IH]; intros [|j] E; simpl in *;
    try discriminate; auto.
Qed.

(** *** Transcription *)

(** [transcribeAudio] returns with [isTranscribing] false again, the
    reader still loading. *)
Lemma transcribeAudio_flag (b : Blob) (s : State) :
  isTranscribing (transcribeAudio b s) = false
  /\ readers (transcribeAudio b s) = readers s ++ [b].
Proof. split; reflexivity. Qed.

(** Whatever the answer of the service, the callback only ever extends
    the buffer. *)
Lemma onloadend_resume_extends (i : nat) (r : InvokeResult) (s : State) :
  exists suffix, content (onloadend_resume i r s) = (content s ++ suffix)%string.
Proof.
  unfold onloadend_resume.
  destruct (nth_error (transcribing s) i); [|exists ""; now rewrite append_empty_r].
  destruct r as [m|[text|]]; simpl;
    try (exists ""; now rewrite append_empty_r).
  destruct (truthy text) eqn:T; simpl;
    [|exists ""; now rewrite append_empty_r].
  unfold appendTranscript. destruct (content s) as [|c rest] eqn:C; simpl.
  - now exists text.
  - now exists (blank_line ++ text)%string.
Qed.

(** An error answer changes nothing but the list of pending invocations:
    no toast, no text, no flag, no further call. *)
Lemma onloadend_resume_error (i : nat) (m : string) (s : State) :
  onloadend_resume i (InvokeError m) s
  = set_transcribing (remove_nth i (transcribing s)) s
  \/ onloadend_resume i (InvokeError m) s = s.
Proof.
  unfold onloadend_resume. destruct (nth_error (transcribing s) i); auto.
Qed.

Lemma onloadend_resume_error_silent (i : nat) (m : string) (s : State) :
  toasts (onloadend_resume i (InvokeError m) s) = toasts s
  /\ content (onloadend_resume i (InvokeError m) s) = content s
  /\ calls (onloadend_resume i (InvokeError m) s) = calls s
  /\ readers (onloadend_resume i (InvokeError m) s) = readers s.
Proof.
  destruct (onloadend_resume_error i m s) as [E|E]; rewrite E;
    repeat split; reflexivity.
Qed.

(** *** Invariants of the reachable states *)



Lemma step_submit_invariant (s : State) (e : Event) :
  submit_invariant s -> submit_invariant (step s e).
Proof.
  unfold submit_invariant, submitsInFlight. intros H.
  destruct e; simpl; auto.
  - unfold micDisabled, stopRecording, startRecording.
    destruct (isTranscribing s || processing s); auto.
    destruct (isRecording s); [destruct (mediaRecorderRef s)|destruct granted];
      simpl; auto.
  - destruct (mediaRecorderRef s); auto. unfold ondataavailable.
    destruct (Nat.ltb 0 (List.length data)); auto.
  - destruct (stopping s); auto.
  - unfold onloadend. destruct (nth_error (readers s) i); auto.
  - unfold onloadend_resume. destruct (nth_error (transcribing s) i); auto.
    destruct r as [m|[text|]]; simpl; auto. destruct (truthy text); auto.
  - unfold submitDisabled, handleSubmit.
    destruct (processing s) eqn:P; simpl; [now rewrite P|].
    destruct (isRecording s || isTranscribing s); simpl; [now rewrite P|].
    destruct (negb (truthy (trim (content s)))); simpl; [now rewrite P|].
    rewrite length_app. simpl. lia.
  - unfold handleSubmit_user.
    destruct (nth_error (authenticating s) i) eqn:E; auto.
    apply remove_nth_length in E.
    destruct user; simpl; try rewrite length_app; simpl;
      destruct (processing s); lia.
  - unfold handleSubmit_resume.
    destruct (nth_error (extracting s) i) eqn:E; auto.
    apply remove_nth_length in E.
    destruct r; simpl; destruct (processing s); lia.
Qed.

Lemma reachable_submit_invariant (s : State) :
  reachable s -> submit_invariant s.
Proof.
  induction 1 as [|s e _ IH]; [reflexivity|]. now apply step_submit_invariant.
Qed.

(** The parts of the guard that do hold: no two submits are in flight
    together, and while one is, or while recording, submit is disabled. *)
Lemma submits_never_overlap (s : State) :
  reachable s -> submitsInFlight s <= 1.
Proof.
  intros R. rewrite (reachable_submit_invariant s R).
  destruct (processing s); lia.
Qed.

Lemma submit_disabled_during_submit (s : State) :
  reachable s -> 0 < submitsInFlight s -> submitDisabled s = true.
Proof.
  intros R. rewrite (reachable_submit_invariant s R). unfold submitDisabled.
  destruct (processing s); [reflexivity|lia].
Qed.

Lemma submit_disabled_while_recording (s : State) :
  isRecording s = true -> submitDisabled s = true.
Proof.
  unfold submitDisabled. intros ->. now rewrite orb_true_r.
Qed.

Lemma run_reachable (s : State) (es : list Event) :
  reachable s -> reachable (run s es).
Proof.
  revert s. induction es as [|e es IH]; intros s R; simpl; auto.
  apply IH. now constructor.
Qed.

(** *** Toasts are write-only

    No handler reads the toasts: two states that differ in their toasts
    alone go through any events side by side, issuing the same calls. *)




(** *** Recording *)



(** Chunks arriving while a recorder is in the ref: the ones that are not
    empty join the buffer, in their order. *)
Lemma run_DataAvailable (chunks : list Blob) (s : State) :
  mediaRecorderRef s <> None ->
  run s (map DataAvailable chunks)
  = set_audioChunksRef (audioChunksRef s ++ filter nonempty chunks) s.
Proof.
  revert s. induction chunks as [|b t IH]; intros s M; simpl.
  - rewrite app_nil_r. now destruct s.
  - destruct (mediaRecorderRef s) eqn:E; [|congruence].
    unfold ondataavailable.
    change (Nat.ltb 0 (List.length b)) with (nonempty b).
    destruct (nonempty b).
    + rewrite IH by (simpl; congruence). simpl.
      rewrite <- app_assoc. reflexivity.
    + apply IH. congruence.
Qed.

Lemma concat_nonempty (chunks : list Blob) :
  List.concat (filter nonempty chunks) = List.concat chunks.
Proof.
  induction chunks as [|b t IH]; simpl; [reflexivity|].
  destruct b; simpl; congruence.
Qed.

Lemma run_cons (s : State) (e : Event) (es : list Event) :
  run s (e :: es) = run (step s e) es.
Proof. reflexivity. Qed.

Lemma run_app (s : State) (es es' : list Event) :
  run s (es ++ es') = run (run s es) es'.
Proof. apply fold_left_app. Qed.

Lemma step_chunks_nonempty (s : State) (e : Event) :
  forallb nonempty (audioChunksRef s) = true ->
  forallb nonempty (audioChunksRef (step s e)) = true.
Proof.
  intros H. destruct e; simpl; auto.
  - unfold micDisabled, stopRecording, startRecording.
    destruct (isTranscribing s || processing s); auto.
    destruct (isRecording s); [destruct (mediaRecorderRef s)|destruct granted];
      simpl; auto.
  - destruct (mediaRecorderRef s); auto. unfold ondataavailable.
    destruct (Nat.ltb 0 (List.length data)) eqn:E; simpl; auto.
    rewrite forallb_app, H. simpl. unfold nonempty. now rewrite E.
  - destruct (stopping s); auto.
  - unfold onloadend. destruct (nth_error (readers s) i); auto.
  - unfold onloadend_resume. destruct (nth_error (transcribing s) i); auto.
    destruct r as [m|[text|]]; simpl; auto. destruct (truthy text); auto.
  - unfold handleSubmit. destruct (submitDisabled s); auto.
    destruct (negb (truthy (trim (content s)))); auto.
  - unfold handleSubmit_user. destruct (nth_error (authenticating s) i); auto.
    destruct user; auto.
  - unfold handleSubmit_resume. destruct (nth_error (extracting s) i); auto.
    destruct r; auto.
Qed.

(** *** The refresh signal *)

Lemma processCalls_app (a b : list Call) :
  processCalls (a ++ b) = processCalls a + processCalls b.
Proof. unfold processCalls. now rewrite filter_app, length_app. Qed.

Lemma step_processed (s : State) (e : Event) :
  processed s + List.length (extracting s) <= processCalls (calls s) ->
  processed (step s e) + List.length (extracting (step s e))
  <= processCalls (calls (step s e)).
Proof.
  intros H. destruct e; simpl; auto.
  - unfold micDisabled, stopRecording, startRecording.
    destruct (isTranscribing s || processing s); auto.
    destruct (isRecording s); [destruct (mediaRecorderRef s)|destruct granted];
      simpl; rewrite ?processCalls_app; simpl; auto.
    all: unfold processCalls at 2; simpl; lia.
  - destruct (mediaRecorderRef s); auto. unfold ondataavailable.
    destruct (Nat.ltb 0 (List.length data)); auto.
  - destruct (stopping s); auto.
  - unfold onloadend. destruct (nth_error (readers s) i); simpl; auto.
    rewrite processCalls_app. lia.
  - unfold onloadend_resume. destruct (nth_error (transcribing s) i); auto.
    destruct r as [m|[text|]]; simpl; auto. destruct (truthy text); auto.
  - unfold handleSubmit. destruct (submitDisabled s); auto.
    destruct (negb (truthy (trim (content s)))); simpl; auto.
    rewrite processCalls_app. lia.
  - unfold handleSubmit_user. destruct (nth_error (authenticating s) i); auto.
    destruct user; simpl; auto.
    rewrite processCalls_app, length_app. unfold processCalls at 2.
    simpl. lia.
  - unfold handleSubmit_resume.
    destruct (nth_error (extracting s) i) eqn:E; auto.
    apply remove_nth_length in E. destruct r; simpl; lia.
Qed.

Lemma reachable_processed (s : State) :
  reachable s ->
  processed s + List.length (extracting s) <= processCalls (calls s).
Proof.
  induction 1 as [|s e _ IH]; [|now apply step_processed].
  unfold processCalls. simpl. lia.
Qed.

(** *** Typing *)

Lemma last_cons_default {A : Type} (x : A) (l : list A) (d d' : A) :
  last (x :: l) d = last (x :: l) d'.
Proof.
  revert x. induction l as [|y t IH]; intros x; [reflexivity|].
  change (last (y :: t) d = last (y :: t) d'). apply IH.
Qed.

Lemma run_Change (typed : list string) (s : State) :
  run s (map Change typed) = setContent (last typed (content s)) s.
Proof.
  revert s. induction typed as [|v t IH]; intros s.
  - now destruct s.
  - change (run (setContent v s) (map Change t)
            = setContent (last (v :: t) (content s)) s).
    rewrite IH. destruct t as [|v' t']; [reflexivity|].
    change (last (v :: v' :: t') (content s))
      with (last (v' :: t') (content s)).
    now rewrite (last_cons_default v' t' (content s) v).
Qed.

(** With the submit button enabled nothing of a submit is pending. *)
Lemma enabled_submit_idle (s : State) :
  reachable s -> submitDisabled s = false ->
  processing s = false /\ authenticating s = [] /\ extracting s = [].
Proof.
  intros R D. pose proof (reachable_submit_invariant s R) as I.
  unfold submit_invariant, submitsInFlight in I. unfold submitDisabled in D.
  destruct (processing s); [discriminate|].
  destruct (authenticating s), (extracting s); simpl in I;
    try discriminate; auto.
Qed.

End JournalInputFacts.

(** ** The capture coordinator against its specification *)
Module JournalInputSpec.

Import JS JSFacts JournalInput JournalInputFacts.

(** C2.  A transcription attempt that fails, traced from mount: the user
    types, records, stops; the reader loads, the request leaves, the service
    answers with an error.  The buffer is as it was, [isTranscribing] is
    false and nothing is sent again, but no toast is shown at all: the
    [catch] of [transcribeAudio] that holds the error toast has long been
    left when the callback throws. *)
Theorem failed_transcription_is_silent :
  let before :=
    run initial
      [ Change "Dear diary"; ClickMic true; ClickMic true;
        DataAvailable [Byte.x01; Byte.x02]; RecorderStop;
        ReaderLoadEnd 0 ] in
  let after := step before (TranscribeAnswer 0 (InvokeError "boom")) in
  transcribing before = [[Byte.x01; Byte.x02]]
  /\ transcribing after = []
  /\ content after = "Dear diary"
  /\ content after = content before
  /\ isTranscribing after = false
  /\ calls after = calls before
  /\ toasts after = toasts before
  /\ existsb isError (toasts after) = false.
Proof. vm_compute. repeat split. Qed.

(** C3.  The submit button is enabled while a transcription is in flight:
    after the recorder stops, [isTranscribing] is already false again, so
    the user can submit, and [process-journal] is invoked while
    [transcribe-audio] has not answered. *)
Theorem submit_enabled_during_transcription :
  let s :=
    run initial
      [ ClickMic true; ClickMic true; DataAvailable [Byte.x01];
        RecorderStop; ReaderLoadEnd 0; Change "Buy milk" ] in
  let s' := run s [ Submit; UserAnswer 0 (Some "user-1") ] in
  reachable s
  /\ transcribing s = [[Byte.x01]]
  /\ isRecording s = false
  /\ isTranscribing s = false
  /\ submitDisabled s = false
  /\ transcribing s' = [[Byte.x01]]
  /\ extracting s' = [("Buy milk", "user-1")]
  /\ calls s' = [ GetUserMedia; InvokeTranscribe [Byte.x01]; AuthGetUser;
                  InvokeProcess "Buy milk" "user-1" ].
Proof.
  split; [apply run_reachable; constructor|].
  vm_compute. repeat split.
Qed.



(** C5, as the code has it.  When [transcribe-audio] answers with a text
    [B] that is not empty, a buffer holding [A], not empty, becomes [A],
    two line feeds, [B], and an empty buffer becomes [B]; an empty [B]
    leaves the buffer alone; in every case the old buffer is the start of
    the new one. *)
Theorem transcript_appended
    (s : State) (i : nat) (audio : Blob) (A B : string) :
  nth_error (transcribing s) i = Some audio ->
  content s = A ->
  let s' := step s (TranscribeAnswer i (InvokeData (Some B))) in
  (B <> "" -> A <> "" -> content s' = (A ++ LF ++ LF ++ B)%string)
  /\ (B <> "" -> A = "" -> content s' = B)
  /\ (B = "" -> content s' = A)
  /\ (exists suffix, content s' = (A ++ suffix)%string).
Proof.
  intros P C. simpl. split; [|split; [|split]].
  - intros HB HA. unfold onloadend_resume. rewrite P.
    destruct B as [|b B']; [congruence|]. simpl.
    unfold appendTranscript. rewrite C.
    destruct A as [|a A']; [congruence|]. simpl.
    reflexivity.
  - intros HB HA. unfold onloadend_resume. rewrite P.
    destruct B as [|b B']; [congruence|]. simpl.
    unfold appendTranscript. now rewrite C, HA.
  - intros HB. unfold onloadend_resume. rewrite P, HB. simpl. exact C.
  - rewrite <- C. apply onloadend_resume_extends.
Qed.

Lemma transcript_appended_witness :
  content
    (step (set_transcribing [[]] (setContent "A" initial))
       (TranscribeAnswer 0 (InvokeData (Some "B"))))
  = ("A" ++ LF ++ LF ++ "B")%string.
Proof.
  apply (proj1 (transcript_appended
                  (set_transcribing [[]] (setContent "A" initial)) 0 []
                  "A" "B" eq_refl eq_refl)); discriminate.
Defined.

(** C5, as it is stated, fails when the service answers with the empty
    text while the buffer holds "A": the buffer stays "A" and does not
    become "A" followed by two line feeds. *)
Lemma empty_transcript_not_appended :
  let s :=
    run initial
      [ Change "A"; ClickMic true; ClickMic true; DataAvailable [Byte.x01];
        RecorderStop; ReaderLoadEnd 0 ] in
  let s' := step s (TranscribeAnswer 0 (InvokeData (Some ""))) in
  content s = "A"
  /\ transcribing s = [[Byte.x01]]
  /\ content s' = "A"
  /\ content s' <> ("A" ++ LF ++ LF ++ "")%string.
Proof. vm_compute. repeat split. discriminate. Qed.



End JournalInputSpec.

(** ** More on the capture coordinator *)
Module JournalInputExtra.

Import JS JSFacts JournalInput JournalInputFacts.







(** X4.  What is handed to the reader is the recording: from a state
    with the record button enabled and no recording running, a click,
    chunks, a click, more chunks and the [stop] event leave one more
    reader, loading the bytes of all those chunks in the order they came,
    and nothing buffered before the first click among them. *)
Theorem recorded_audio_is_the_chunks
    (s : State) (before after : list Blob) (g : bool) :
  micDisabled s = false -> isRecording s = false ->
  let s' :=
    run s (ClickMic true :: map DataAvailable before
             ++ ClickMic g :: map DataAvailable after ++ [RecorderStop]) in
  readers s' = readers s ++ [List.concat (before ++ after)]
  /\ isRecording s' = false
  /\ stopping s' = stopping s
  /\ openStreams s' = openStreams s.
Proof.
  intros D Re. cbv zeta. rewrite run_cons, run_app.
  assert (S1 : step s (ClickMic true) = startRecording true s).
  { simpl. now rewrite D, Re. }
  rewrite S1, run_DataAvailable by (simpl; discriminate).
  rewrite run_cons, run_app.
  unfold micDisabled in D. apply orb_false_iff in D as [T P].
  match goal with |- context [step ?x (ClickMic g)] =>
    assert (S2 : step x (ClickMic g) = stopRecording x)
      by (simpl; unfold micDisabled; simpl; now rewrite T, P) end.
  rewrite S2, run_DataAvailable by (simpl; discriminate).
  simpl. rewrite !concat_app, !concat_nonempty.
  repeat split.
Qed.

Lemma recorded_audio_is_the_chunks_witness :
  readers
    (run initial
       [ClickMic true; DataAvailable [Byte.x01]; ClickMic true;
        DataAvailable []; DataAvailable [Byte.x02; Byte.x03]; RecorderStop])
  = [[Byte.x01; Byte.x02; Byte.x03]].
Proof.
  exact (proj1 (recorded_audio_is_the_chunks initial [[Byte.x01]]
                  [[]; [Byte.x02; Byte.x03]] true eq_refl eq_refl)).
Defined.

(** X5.  A submit that finds nobody signed in: the sign-in error is
    shown, [process-journal] is not invoked, the buffer stays,
    [processing] is reset, nothing is left pending and [onProcessed] is
    not called. *)
Theorem submit_without_user (s : State) :
  blank (content s) = false ->
  let s1 := handleSubmit s in
  let s2 := handleSubmit_user (List.length (authenticating s)) None s1 in
  processing s1 = true
  /\ calls s2 = calls s ++ [AuthGetUser]
  /\ toasts s2 = toasts s ++ [ToastError "Please sign in to continue"]
  /\ content s2 = content s
  /\ processing s2 = false
  /\ authenticating s2 = authenticating s
  /\ extracting s2 = extracting s
  /\ processed s2 = processed s.
Proof.
  intros B. unfold handleSubmit. rewrite truthy_trim, B. simpl.
  unfold handleSubmit_user. simpl. rewrite nth_error_last. simpl.
  rewrite remove_nth_last. repeat split.
Qed.

Lemma submit_without_user_witness :
  calls
    (handleSubmit_user 0 None (handleSubmit (setContent "Call mom" initial)))
  = [AuthGetUser].
Proof.
  exact (proj1 (proj2 (submit_without_user (setContent "Call mom" initial)
                         eq_refl))).
Defined.

(** X6.  How a submit that reached [process-journal] ends.  Without
    error: the success toast, [onProcessed] called once, [processing]
    reset.  With an error: an error toast carrying the message of the
    error, or "Failed to process journal entry" when that message is
    empty, [onProcessed] not called, [processing] reset.  Either way
    nothing of the submit is left pending. *)
Theorem submit_outcome (s : State) (uid : string) (r : InvokeResult) :
  blank (content s) = false ->
  let s1 := handleSubmit s in
  let s2 := handleSubmit_user (List.length (authenticating s)) (Some uid) s1 in
  let s3 := handleSubmit_resume (List.length (extracting s)) r s2 in
  processing s2 = true
  /\ processing s3 = false
  /\ authenticating s3 = authenticating s
  /\ extracting s3 = extracting s
  /\ match r with
     | InvokeData _ =>
         processed s3 = S (processed s)
         /\ toasts s3
            = toasts s
              ++ [ToastSuccess "Journal processed! Your insights are ready."]
     | InvokeError m =>
         processed s3 = processed s
         /\ toasts s3
            = toasts s
              ++ [ToastError
                    (if truthy m then m
                     else "Failed to process journal entry")]
     end.
Proof.
  intros B. unfold handleSubmit. rewrite truthy_trim, B. simpl.
  unfold handleSubmit_user. simpl. rewrite nth_error_last. simpl.
  unfold handleSubmit_resume. simpl. rewrite nth_error_last.
  rewrite !remove_nth_last. destruct r; repeat split.
Qed.

Lemma submit_outcome_witness :
  toasts
    (handleSubmit_resume 0 (InvokeError "")
       (handleSubmit_user 0 (Some "user-1")
          (handleSubmit (setContent "Call mom" initial))))
  = [ToastError "Failed to process journal entry"].
Proof.
  exact (proj2 (proj2 (proj2 (proj2 (proj2
           (submit_outcome (setContent "Call mom" initial) "user-1"
              (InvokeError "") eq_refl)))))).
Defined.

(** X7.  [onProcessed] is never called without an invocation of
    [process-journal] behind it: the calls of [onProcessed] so far and
    the invocations still awaiting their answer together never exceed
    the invocations made. *)
Theorem refresh_needs_extraction (s : State) :
  reachable s ->
  processed s + List.length (extracting s) <= processCalls (calls s).
Proof. apply reachable_processed. Qed.

Lemma refresh_needs_extraction_witness :
  processed
    (run initial
       [Change "Buy milk"; Submit; UserAnswer 0 (Some "user-1");
        ProcessAnswer 0 (InvokeData None)])
  + 0 <= 1.
Proof.
  exact (refresh_needs_extraction _
           (run_reachable initial
              [Change "Buy milk"; Submit; UserAnswer 0 (Some "user-1");
               ProcessAnswer 0 (InvokeData None)] reachable_initial)).
Defined.

(** X8.  The text sent to [process-journal] is the buffer as it was when
    submit was clicked, whatever is typed while the user is looked up;
    and a success empties the buffer, whatever was typed while the
    request was under way. *)
Theorem submit_sends_text_at_click
    (s : State) (uid : string) (typed typed' : list string)
    (d : option string) :
  reachable s -> submitDisabled s = false -> blank (content s) = false ->
  let s1 :=
    run s (Submit :: map Change typed ++ [UserAnswer 0 (Some uid)]) in
  let s2 :=
    run s1 (map Change typed' ++ [ProcessAnswer 0 (InvokeData d)]) in
  calls s1 = calls s ++ [AuthGetUser; InvokeProcess (content s) uid]
  /\ content s1 = last typed (content s)
  /\ content s2 = ""
  /\ processed s2 = S (processed s).
Proof.
  intros R D B. destruct (enabled_submit_idle s R D) as (P & A & E).
  cbv zeta. rewrite run_cons, run_app, run_Change.
  assert (S1 : step s Submit
               = set_authenticating [content s]
                   (call AuthGetUser (setProcessing true s))).
  { simpl. rewrite D. unfold handleSubmit. rewrite truthy_trim, B. simpl.
    now rewrite A. }
  rewrite S1, run_app, run_Change. simpl.
  unfold handleSubmit_user. simpl. unfold handleSubmit_resume. simpl.
  rewrite E. simpl. rewrite <- app_assoc. repeat split.
Qed.

Lemma submit_sends_text_at_click_witness :
  calls
    (run (setContent "Buy milk" initial)
       [Submit; Change "Buy milk and"; Change "Buy milk and eggs";
        UserAnswer 0 (Some "user-1")])
  = [AuthGetUser; InvokeProcess "Buy milk" "user-1"].
Proof.
  exact (proj1 (submit_sends_text_at_click (setContent "Buy milk" initial)
                  "user-1" ["Buy milk and"; "Buy milk and eggs"] [] None
                  (reachable_step initial (Change "Buy milk")
                     reachable_initial)
                  eq_refl eq_refl)).
Defined.

(** X9.  The journal text is written by three things only: typing, a
    transcription that answers with a text, and a submit that
    [process-journal] answers without error.  Recording, stopping,
    reading, looking up the user and every error answer leave it alone. *)
Theorem text_written_only_by (s : State) (e : Event) :
  match e with
  | Change _ => True
  | TranscribeAnswer _ (InvokeData (Some _)) => True
  | ProcessAnswer _ (InvokeData _) => True
  | _ => content (step s e) = content s
  end.
Proof.
  destruct e as [v|g|b| |i|i r| |i u|i r]; simpl; auto.
  - unfold micDisabled, stopRecording, startRecording.
    destruct (isTranscribing s || processing s); auto.
    destruct (isRecording s); [destruct (mediaRecorderRef s)|destruct g];
      reflexivity.
  - destruct (mediaRecorderRef s); auto. unfold ondataavailable.
    destruct (Nat.ltb 0 (List.length b)); reflexivity.
  - destruct (stopping s); reflexivity.
  - unfold onloadend. destruct (nth_error (readers s) i); reflexivity.
  - destruct r as [m|[text|]]; auto; unfold onloadend_resume;
      destruct (nth_error (transcribing s) i); reflexivity.
  - unfold handleSubmit. destruct (submitDisabled s); auto.
    destruct (negb (truthy (trim (content s)))); reflexivity.
  - unfold handleSubmit_user. destruct (nth_error (authenticating s) i); auto.
    destruct u; reflexivity.
  - destruct r; auto. unfold handleSubmit_resume.
    destruct (nth_error (extracting s) i); reflexivity.
Qed.

(** X10.  At most one submit is in flight at any time, [processing] is
    set exactly while one is, and the submit button then does nothing. *)
Theorem one_submit_at_a_time (s : State) :
  reachable s ->
  submitsInFlight s <= 1
  /\ (processing s = true <-> submitsInFlight s = 1)
  /\ (0 < submitsInFlight s -> step s Submit = s).
Proof.
  intros R. pose proof (reachable_submit_invariant s R) as I.
  unfold submit_invariant in I. rewrite I.
  destruct (processing s) eqn:P; repeat split; intros; try lia;
    try discriminate.
  simpl. unfold submitDisabled. now rewrite P.
Qed.

Lemma one_submit_at_a_time_witness :
  step (run initial [Change "Buy milk"; Submit]) Submit
  = run initial [Change "Buy milk"; Submit].
Proof.
  refine (proj2 (proj2 (one_submit_at_a_time _
            (run_reachable initial [Change "Buy milk"; Submit]
               reachable_initial))) _).
  vm_compute. lia.
Defined.

(** X11.  A refused microphone, asked for with the record button enabled
    and no recording running: the request is made, the error toast is
    shown and nothing else changes, so no recording runs, no stream is
    open for it, and the button is as enabled as before. *)
Theorem microphone_refused (s : State) :
  micDisabled s = false -> isRecording s = false ->
  let s' := step s (ClickMic false) in
  s' = toast_error
         "Failed to start recording. Please check microphone permissions."
         (call GetUserMedia s)
  /\ isRecording s' = false
  /\ openStreams s' = openStreams s
  /\ mediaRecorderRef s' = mediaRecorderRef s
  /\ micDisabled s' = false
  /\ isRecording (step s' (ClickMic true)) = true.
Proof.
  intros D Re. simpl. rewrite D, Re. unfold startRecording. simpl.
  repeat split; auto.
  unfold micDisabled in *. simpl. rewrite D. simpl. now rewrite Re.
Qed.

Lemma microphone_refused_witness :
  toasts (step initial (ClickMic false))
  = [ToastError
       "Failed to start recording. Please check microphone permissions."].
Proof.
  exact (f_equal toasts (proj1 (microphone_refused initial eq_refl eq_refl))).
Defined.

(** X12.  No empty chunk is ever buffered: [ondataavailable] drops the
    chunks of size zero. *)
Theorem no_empty_chunk_buffered (s : State) :
  reachable s -> forallb nonempty (audioChunksRef s) = true.
Proof.
  induction 1 as [|s e _ IH]; [reflexivity|].
  now apply step_chunks_nonempty.
Qed.

Lemma no_empty_chunk_buffered_witness :
  forallb nonempty
    (audioChunksRef
       (run initial [ClickMic true; DataAvailable []; DataAvailable [Byte.x01]]))
  = true.
Proof.
  exact (no_empty_chunk_buffered _
           (run_reachable initial
              [ClickMic true; DataAvailable []; DataAvailable [Byte.x01]]
              reachable_initial)).
Defined.

(** X13.  An answer of [transcribe-audio] that carries no text, or the
    empty text, is dropped without a word: the invocation is no longer
    pending and nothing else changes, no toast included.  An answer with
    a text that is not empty shows "Transcription complete!". *)
Theorem transcript_without_text (s : State) (i : nat) (audio : Blob) :
  nth_error (transcribing s) i = Some audio ->
  step s (TranscribeAnswer i (InvokeData None))
  = set_transcribing (remove_nth i (transcribing s)) s
  /\ step s (TranscribeAnswer i (InvokeData (Some "")))
     = set_transcribing (remove_nth i (transcribing s)) s
  /\ forall text, text <> "" ->
       toasts (step s (TranscribeAnswer i (InvokeData (Some text))))
       = toasts s ++ [ToastSuccess "Transcription complete!"].
Proof.
  intros P. simpl. unfold onloadend_resume. rewrite P.
  repeat split. intros text T. destruct text; [congruence|reflexivity].
Qed.

Lemma transcript_without_text_witness :
  let s := run initial
             [Change "A"; ClickMic true; ClickMic true; RecorderStop;
              ReaderLoadEnd 0] in
  step s (TranscribeAnswer 0 (InvokeData None))
  = set_transcribing [] s.
Proof.
  intros s. exact (proj1 (transcript_without_text s 0 [] eq_refl)).
Defined.

(** X14.  Transcripts land in the buffer in the order their answers
    arrive, whichever recording was made first, each after a blank
    line: two answers with texts that are not empty leave the buffer
    with the first text, then the second, appended. *)
Theorem transcripts_in_answer_order
    (s : State) (i j : nat) (a b : Blob) (first second : string) :
  nth_error (transcribing s) i = Some a ->
  nth_error (remove_nth i (transcribing s)) j = Some b ->
  first <> "" -> second <> "" ->
  content
    (run s [TranscribeAnswer i (InvokeData (Some first));
            TranscribeAnswer j (InvokeData (Some second))])
  = (appendTranscript first (content s) ++ LF ++ LF ++ second)%string.
Proof.
  intros Pi Pj F S. simpl. unfold onloadend_resume at 2. rewrite Pi.
  destruct first as [|c first']; [congruence|]. simpl.
  unfold onloadend_resume. simpl. rewrite Pj.
  destruct second as [|c' second']; [congruence|]. simpl.
  unfold appendTranscript at 1.
  destruct (appendTranscript (String c first') (content s)) eqn:E.
  - unfold appendTranscript in E. destruct (content s); discriminate.
  - reflexivity.
Qed.

Lemma transcripts_in_answer_order_witness :
  content
    (run (set_transcribing [[Byte.x01]; [Byte.x02]] initial)
       [TranscribeAnswer 1 (InvokeData (Some "second recording"));
        TranscribeAnswer 0 (InvokeData (Some "first recording"))])
  = ("second recording" ++ LF ++ LF ++ "first recording")%string.
Proof.
  apply (transcripts_in_answer_order
           (set_transcribing [[Byte.x01]; [Byte.x02]] initial) 1 0
           [Byte.x02] [Byte.x01] "second recording" "first recording"
           eq_refl eq_refl); discriminate.
Defined.

End JournalInputExtra.

(** ** Properties of the insight synchronizer *)
Module InsightsDisplayFacts.

Import JS InsightsDisplay.

(** *** The monad *)

Lemma exec_bind {A B : Type} (m : M A) (k : A -> M B) (w : World) :
  exec (bind m k) w = exec (k (fst (m w))) (snd (m w)).
Proof. unfold exec, bind. now destruct (m w). Qed.

(** *** Requests

    Each request appends itself to the log and uses up one fault; only
    [update] and [delete] write the store, and only when they succeed. *)

Lemma select_world (table user column : string) (ascending : bool)
    (limit : option nat) (w : World) :
  snd (select table user column ascending limit w)
  = after_request (Select table user column ascending limit) w.
Proof.
  destruct w as [t e n h ei et ev ts d se fs lg]. unfold after_request.
  destruct fs as [|[] fs]; reflexivity.
Qed.

Lemma select_data (table user column : string) (ascending : bool)
    (limit : option nat) (w : World) :
  fst (select table user column ascending limit w)
  = if hd false (faults w) then None
    else store_select table user column ascending limit (db w).
Proof.
  destruct w as [t e n h ei et ev ts d se fs lg].
  destruct fs as [|[] fs]; reflexivity.
Qed.

(** The outcome of an [update]: an error and the store as it was, or no
    error and the store the request describes. *)
Lemma update_outcome (table : string) (values : Values) (id : string)
    (w : World) :
  update table values id w
  = match (if hd false (faults w) then None
           else store_update table values id (db w)) with
    | Some d' => (false, set_db d' (after_request (Update table values id) w))
    | None => (true, after_request (Update table values id) w)
    end.
Proof.
  destruct w as [t e n h ei et ev ts d se fs lg]. unfold after_request.
  destruct fs as [|[] fs]; unfold update, bind, request, fault, modify, get;
    simpl; try reflexivity;
    destruct (store_update table values id d); reflexivity.
Qed.

Lemma delete_outcome (table id : string) (w : World) :
  delete table id w
  = match (if hd false (faults w) then None
           else store_delete table id (db w)) with
    | Some d' => (false, set_db d' (after_request (Delete table id) w))
    | None => (true, after_request (Delete table id) w)
    end.
Proof.
  destruct w as [t e n h ei et ev ts d se fs lg]. unfold after_request.
  destruct fs as [|[] fs]; unfold delete, bind, request, fault, modify, get;
    simpl; try reflexivity;
    destruct (store_delete table id d); reflexivity.
Qed.

(** *** [fetchData] *)

(** Without a user, [fetchData] asks who the user is and stops. *)
Lemma fetchData_no_user (w : World) :
  session w = None -> exec fetchData w = set_log (log w ++ [AuthGetUser]) w.
Proof.
  destruct w as [t e n h ei et ev ts d se fs lg]. simpl. intros ->.
  reflexivity.
Qed.

Lemma fetchData_ok (w : World) (uid : string) :
  session w = Some uid -> faults w = [] ->
  exec fetchData w
  = loaded uid (db w) (set_log (log w ++ AuthGetUser :: reload uid) w).
Proof.
  destruct w as [t e n h ei et ev ts d se fs lg]. simpl.
  intros -> ->. unfold exec, fetchData, bind, getUser, request, modify, get.
  simpl. unfold loaded, reload. simpl.
  repeat rewrite <- app_assoc. reflexivity.
Qed.

(** Whatever fails, [fetchData] writes nothing but the four collections,
    and issues exactly its requests. *)
Lemma fetchData_frame (w : World) :
  db (exec fetchData w) = db w
  /\ editingId (exec fetchData w) = editingId w
  /\ editingType (exec fetchData w) = editingType w
  /\ editValue (exec fetchData w) = editValue w
  /\ toasts (exec fetchData w) = toasts w
  /\ session (exec fetchData w) = session w
  /\ log (exec fetchData w)
     = log w ++ AuthGetUser ::
         match session w with Some uid => reload uid | None => [] end.
Proof.
  destruct w as [t e n h ei et ev ts d se fs lg].
  destruct se as [uid|]; [|repeat split].
  unfold exec, fetchData, bind, getUser, request, modify, get, reload.
  destruct fs as [|[] [|[] [|[] [|[] fs]]]]; simpl;
    repeat rewrite <- app_assoc; repeat split.
Qed.

(** *** Tables *)

Section TableFacts.

Context {R : Type} `{Row R}.

Lemma In_insert_row (le : R -> R -> bool) (x y : R) (l : list R) :
  In y (insert_row le x l) <-> y = x \/ In y l.
Proof.
  induction l as [|z t IH]; simpl.
  - intuition.
  - destruct (le x z); simpl; [intuition|]. rewrite IH. intuition.
Qed.

(** Sorting keeps the rows it is given. *)
Lemma In_sort_rows (le : R -> R -> bool) (y : R) (l : list R) :
  In y (sort_rows le l) <-> In y l.
Proof.
  induction l as [|x t IH]; simpl; [tauto|].
  unfold sort_rows in *. simpl. rewrite In_insert_row, IH. intuition.
Qed.

(** An unlimited [select] delivers exactly the rows of the user. *)
Lemma In_select_where_user (user : string) (key : R -> option string)
    (ascending : bool) (l : list R) (r : R) :
  In r (select_where_user user key ascending None l)
  <-> In r l /\ row_user_id r = user.
Proof.
  unfold select_where_user. simpl.
  rewrite In_sort_rows, filter_In. unfold owned_by.
  now rewrite String.eqb_eq.
Qed.

Variable f : R -> R.
Hypothesis f_id : forall r, row_id (f r) = row_id r.
Hypothesis f_user : forall r, row_user_id (f r) = row_user_id r.

(** An update by id leaves the rows of every other id as they are. *)
Lemma update_other_rows (id : string) (l : list R) :
  delete_where_id id (update_where_id id f l) = delete_where_id id l.
Proof.
  unfold delete_where_id, update_where_id.
  induction l as [|r t IH]; simpl; [reflexivity|].
  destruct (has_id id r) eqn:E.
  - unfold has_id in *. rewrite f_id, E. simpl. exact IH.
  - rewrite E. simpl. now rewrite IH.
Qed.

Lemma delete_other_rows (id : string) (l : list R) :
  delete_where_id id (delete_where_id id l) = delete_where_id id l.
Proof.
  unfold delete_where_id.
  induction l as [|r t IH]; simpl; [reflexivity|].
  destruct (has_id id r) eqn:E; simpl; [exact IH|].
  rewrite E. simpl. now rewrite IH.
Qed.

(** When the id names only rows of the user, an update or a delete by
    that id leaves the rows of everybody else as they are. *)
Lemma update_foreign (user id : string) (l : list R) :
  scoped user id l = true ->
  foreign user (update_where_id id f l) = foreign user l.
Proof.
  unfold scoped, foreign, update_where_id.
  induction l as [|r t IH]; simpl; [reflexivity|].
  intros S. apply andb_true_iff in S as [Sr St].
  destruct (has_id id r) eqn:E; simpl in Sr.
  - unfold owned_by in *. rewrite f_user, Sr. simpl. now apply IH.
  - now rewrite IH.
Qed.

Lemma delete_foreign (user id : string) (l : list R) :
  scoped user id l = true ->
  foreign user (delete_where_id id l) = foreign user l.
Proof.
  unfold scoped, foreign, delete_where_id.
  induction l as [|r t IH]; simpl; [reflexivity|].
  intros S. apply andb_true_iff in S as [Sr St].
  destruct (has_id id r) eqn:E; simpl in *.
  - rewrite Sr. simpl. now apply IH.
  - now rewrite IH.
Qed.

End TableFacts.

(** The values an [update] writes never touch [id] or [user_id]. *)
Lemma task_values_keys (v : Values) (f : Task -> Task) :
  task_values v = Some f ->
  (forall r, row_id (f r) = row_id r)
  /\ (forall r, row_user_id (f r) = row_user_id r).
Proof. destruct v; simpl; intros E; inversion E; split; reflexivity. Qed.

Lemma event_values_keys (v : Values) (f : CalendarEvent -> CalendarEvent) :
  event_values v = Some f ->
  (forall r, row_id (f r) = row_id r)
  /\ (forall r, row_user_id (f r) = row_user_id r).
Proof. destruct v; simpl; intros E; inversion E; split; reflexivity. Qed.

Lemma note_values_keys (v : Values) (f : Note -> Note) :
  note_values v = Some f ->
  (forall r, row_id (f r) = row_id r)
  /\ (forall r, row_user_id (f r) = row_user_id r).
Proof. destruct v; simpl; intros E; inversion E; split; reflexivity. Qed.

Lemma health_values_keys (v : Values) (f : HealthMention -> HealthMention) :
  health_values v = Some f ->
  (forall r, row_id (f r) = row_id r)
  /\ (forall r, row_user_id (f r) = row_user_id r).
Proof. destruct v; simpl; intros E; inversion E; split; reflexivity. Qed.

(** *** The store under [update] and [delete] *)

Ltac table_cases table :=
  destruct (String.eqb table "tasks");
  [|destruct (String.eqb table "calendar_events");
    [|destruct (String.eqb table "notes");
      [|destruct (String.eqb table "health_mentions")]]].

Lemma store_update_other_rows (table : string) (v : Values) (id : string)
    (d d' : Store) :
  store_update table v id d = Some d' -> other_rows id d' = other_rows id d.
Proof.
  unfold store_update, other_rows. table_cases table; try discriminate.
  - destruct (task_values v) as [f|] eqn:V; [|discriminate].
    destruct (task_values_keys v f V) as [Fi Fu].
    intros E; inversion E; subst; simpl. now rewrite update_other_rows.
  - destruct (event_values v) as [f|] eqn:V; [|discriminate].
    destruct (event_values_keys v f V) as [Fi Fu].
    intros E; inversion E; subst; simpl. now rewrite update_other_rows.
  - destruct (note_values v) as [f|] eqn:V; [|discriminate].
    destruct (note_values_keys v f V) as [Fi Fu].
    intros E; inversion E; subst; simpl. now rewrite update_other_rows.
  - destruct (health_values v) as [f|] eqn:V; [|discriminate].
    destruct (health_values_keys v f V) as [Fi Fu].
    intros E; inversion E; subst; simpl. now rewrite update_other_rows.
Qed.

Lemma store_delete_other_rows (table id : string) (d d' : Store) :
  store_delete table id d = Some d' -> other_rows id d' = other_rows id d.
Proof.
  unfold store_delete, other_rows. table_cases table; try discriminate;
    intros E; inversion E; subst; simpl; now rewrite delete_other_rows.
Qed.

Lemma store_update_foreign (user table : string) (v : Values) (id : string)
    (d d' : Store) :
  in_scope user id d = true ->
  store_update table v id d = Some d' ->
  foreign_rows user d' = foreign_rows user d.
Proof.
  unfold in_scope, store_update, foreign_rows. intros S.
  repeat (apply andb_true_iff in S as [S ?]).
  table_cases table; try discriminate.
  - destruct (task_values v) as [f|] eqn:V; [|discriminate].
    destruct (task_values_keys v f V) as [Fi Fu].
    intros E; inversion E; subst; simpl. now rewrite update_foreign.
  - destruct (event_values v) as [f|] eqn:V; [|discriminate].
    destruct (event_values_keys v f V) as [Fi Fu].
    intros E; inversion E; subst; simpl. now rewrite update_foreign.
  - destruct (note_values v) as [f|] eqn:V; [|discriminate].
    destruct (note_values_keys v f V) as [Fi Fu].
    intros E; inversion E; subst; simpl. now rewrite update_foreign.
  - destruct (health_values v) as [f|] eqn:V; [|discriminate].
    destruct (health_values_keys v f V) as [Fi Fu].
    intros E; inversion E; subst; simpl. now rewrite update_foreign.
Qed.

Lemma store_delete_foreign (user table id : string) (d d' : Store) :
  in_scope user id d = true ->
  store_delete table id d = Some d' ->
  foreign_rows user d' = foreign_rows user d.
Proof.
  unfold in_scope, store_delete, foreign_rows. intros S.
  repeat (apply andb_true_iff in S as [S ?]).
  table_cases table; try discriminate;
    intros E; inversion E; subst; simpl; now rewrite delete_foreign.
Qed.

Lemma update_respects (P : Store -> Store -> Prop) (id table : string)
    (v : Values) (w : World) :
  respected P id -> P (db (snd (update table v id w))) (db w).
Proof.
  intros (Prefl & Pupd & _). rewrite update_outcome.
  destruct (hd false (faults w)); [apply Prefl|].
  destruct (store_update table v id (db w)) eqn:E; [|apply Prefl].
  simpl. now apply Pupd with (table := table) (v := v).
Qed.

Lemma delete_respects (P : Store -> Store -> Prop) (id table : string)
    (w : World) :
  respected P id -> P (db (snd (delete table id w))) (db w).
Proof.
  intros (Prefl & _ & Pdel). rewrite delete_outcome.
  destruct (hd false (faults w)); [apply Prefl|].
  destruct (store_delete table id (db w)) eqn:E; [|apply Prefl].
  simpl. now apply Pdel with (table := table).
Qed.

(** *** The handlers *)

Lemma toast_world (t : string) (b : bool) (w : World) :
  exec (toast t b) w = set_toasts (toasts w ++ [mkToast t b]) w.
Proof. reflexivity. Qed.

Lemma startEdit_world (id type v : string) (w : World) :
  exec (startEdit id type v) w
  = setEditValue v (setEditingType (Some type) (setEditingId (Some id) w)).
Proof. reflexivity. Qed.

Lemma cancelEdit_world (w : World) :
  exec cancelEdit w
  = setEditValue "" (setEditingType None (setEditingId None w)).
Proof. reflexivity. Qed.

Lemma toggleTask_world (taskId : string) (completed : bool) (w : World) :
  exec (toggleTask taskId completed) w
  = exec fetchData
      (snd (update "tasks" (Completed (negb completed)) taskId w)).
Proof. unfold toggleTask. now rewrite exec_bind. Qed.

(** [saveEdit] returns at once on a falsy [editingId] or [editingType]. *)
Lemma saveEdit_return (w : World) :
  falsy (editingId w) || falsy (editingType w) = true ->
  saveEdit w = (tt, w).
Proof.
  intros F. unfold saveEdit, bind, get. now rewrite F.
Qed.

(** Otherwise it issues its request and goes one of two ways. *)
Lemma saveEdit_world (w : World) (id type : string) :
  editingId w = Some id -> editingType w = Some type ->
  truthy id = true -> truthy type = true ->
  exec saveEdit w
  = let r := saveEdit_request type (editValue w) id w in
    if fst r then exec (toast "Failed to update" true) (snd r)
    else exec fetchData
           (exec cancelEdit
              (exec (toast "Updated successfully" false) (snd r))).
Proof.
  intros Ei Et Ti Tt. unfold saveEdit, exec, bind, get.
  rewrite Ei, Et. simpl. rewrite Ti, Tt. simpl.
  destruct (saveEdit_request type (editValue w) id w) as [[] w1];
    reflexivity.
Qed.

(** The request of [saveEdit]: none for a type that is not one of the
    four, else an update on the table of that name which the store
    accepts. *)
Lemma saveEdit_request_cases (type value id : string) :
  (~ In type kinds /\ saveEdit_request type value id = ret false)
  \/ (In type kinds
      /\ exists values,
           saveEdit_request type value id = update type values id
           /\ forall d, store_update type values id d <> None).
Proof.
  unfold saveEdit_request, kinds.
  destruct (String.eqb_spec type "tasks") as [->|N1].
  { right. split; [simpl; auto|]. exists (Title value). split; [reflexivity|].
    intros d. discriminate. }
  destruct (String.eqb_spec type "calendar_events") as [->|N2].
  { right. split; [simpl; auto|]. exists (Title value). split; [reflexivity|].
    intros d. discriminate. }
  destruct (String.eqb_spec type "notes") as [->|N3].
  { right. split; [simpl; auto|]. exists (Content value).
    split; [reflexivity|]. intros d. discriminate. }
  destruct (String.eqb_spec type "health_mentions") as [->|N4].
  { right. split; [simpl; auto|]. exists (Content value).
    split; [reflexivity|]. intros d. discriminate. }
  left. split; [|reflexivity]. simpl. intuition congruence.
Qed.

Lemma deleteItem_world (id : string) (type : ItemType) (w : World) :
  exists table,
    exec (deleteItem id type) w
    = let r := delete table id w in
      if fst r then exec (toast "Failed to delete" true) (snd r)
      else exec fetchData
             (exec (toast "Deleted successfully" false) (snd r)).
Proof.
  unfold deleteItem, exec, bind.
  destruct type;
    [exists "tasks"|exists "calendar_events"|exists "notes"
    |exists "health_mentions"];
    match goal with |- context [delete ?t id w] =>
      destruct (delete t id w) as [[] w1] end; reflexivity.
Qed.

(** Every mutating operation changes the store only through its one
    request by the id it names. *)
Lemma mutate_respects (P : Store -> Store -> Prop) (m : Mutation)
    (w : World) (id : string) :
  target m w = Some id -> respected P id ->
  P (db (exec (mutate m) w)) (db w).
Proof.
  intros T RP. destruct m as [taskId completed| |id' type]; simpl in *.
  - inversion T; subst. rewrite toggleTask_world.
    destruct (fetchData_frame
                (snd (update "tasks" (Completed (negb completed)) id w)))
      as [-> _].
    exact (update_respects P id "tasks" _ w RP).
  - destruct (falsy (editingId w) || falsy (editingType w)) eqn:F.
    { unfold exec. rewrite (saveEdit_return w F). apply RP. }
    apply orb_false_iff in F as [Fi Ft].
    rewrite T in Fi. simpl in Fi. apply negb_false_iff in Fi.
    destruct (editingType w) as [type|] eqn:Et; [|discriminate].
    simpl in Ft. apply negb_false_iff in Ft.
    rewrite (saveEdit_world w id type T Et Fi Ft).
    assert (D : P (db (snd (saveEdit_request type (editValue w) id w)))
                  (db w)).
    { destruct (saveEdit_request_cases type (editValue w) id)
        as [[_ ->]|[_ [values [-> _]]]]; [apply RP|].
      exact (update_respects P id type values w RP). }
    cbv zeta.
    destruct (fst (saveEdit_request type (editValue w) id w)).
    + rewrite toast_world. exact D.
    + match goal with |- P (db (exec fetchData ?x)) _ =>
        destruct (fetchData_frame x) as [-> _] end.
      exact D.
  - inversion T; subst.
    destruct (deleteItem_world id type w) as [table ->]. cbv zeta.
    assert (D : P (db (snd (delete table id w))) (db w))
      by exact (delete_respects P id table w RP).
    destruct (fst (delete table id w)).
    + rewrite toast_world. exact D.
    + match goal with |- P (db (exec fetchData ?x)) _ =>
        destruct (fetchData_frame x) as [-> _] end.
      exact D.
Qed.

(** *** Toggling *)






(** *** What requests leave alone *)

Lemma update_frame (table : string) (values : Values) (id : string)
    (w : World) :
  let w' := snd (update table values id w) in
  tasks w' = tasks w /\ events w' = events w /\ notes w' = notes w
  /\ health w' = health w /\ editingId w' = editingId w
  /\ editingType w' = editingType w /\ editValue w' = editValue w
  /\ toasts w' = toasts w /\ session w' = session w
  /\ faults w' = tl (faults w)
  /\ log w' = log w ++ [Update table values id].
Proof.
  cbv zeta. rewrite update_outcome.
  destruct (if hd false (faults w) then None
            else store_update table values id (db w));
    repeat split.
Qed.

Lemma delete_frame (table id : string) (w : World) :
  let w' := snd (delete table id w) in
  tasks w' = tasks w /\ events w' = events w /\ notes w' = notes w
  /\ health w' = health w /\ editingId w' = editingId w
  /\ editingType w' = editingType w /\ editValue w' = editValue w
  /\ toasts w' = toasts w /\ session w' = session w
  /\ faults w' = tl (faults w)
  /\ log w' = log w ++ [Delete table id].
Proof.
  cbv zeta. rewrite delete_outcome.
  destruct (if hd false (faults w) then None
            else store_delete table id (db w));
    repeat split.
Qed.

Lemma deleteItem_named (id : string) (type : ItemType) (w : World) :
  exec (deleteItem id type) w
  = let r := delete (type_name type) id w in
    if fst r then exec (toast "Failed to delete" true) (snd r)
    else exec fetchData
           (exec (toast "Deleted successfully" false) (snd r)).
Proof.
  unfold deleteItem, exec, bind.
  destruct type; simpl;
    match goal with |- context [delete ?t id w] =>
      destruct (delete t id w) as [[] w1] end; reflexivity.
Qed.

Lemma store_delete_named (type : ItemType) (id : string) (d : Store) :
  store_delete (type_name type) id d
  = Some match type with
         | tasks_type =>
             set_tasks_table (delete_where_id id (tasks_table d)) d
         | calendar_events_type =>
             set_calendar_events_table
               (delete_where_id id (calendar_events_table d)) d
         | notes_type =>
             set_notes_table (delete_where_id id (notes_table d)) d
         | health_mentions_type =>
             set_health_mentions_table
               (delete_where_id id (health_mentions_table d)) d
         end.
Proof. now destruct type. Qed.

(** *** More on tables *)

Section SelectFacts.

Context {R : Type} `{Row R}.

Lemma In_firstn (n : nat) (l : list R) (r : R) :
  In r (firstn n l) -> In r l.
Proof.
  revert l. induction n as [|n IH]; intros [|x t]; simpl; try tauto.
  intros [E|I]; auto.
Qed.

(** A [select] delivers rows of the table that are rows of the user. *)
Lemma select_sound (user : string) (key : R -> option string)
    (ascending : bool) (limit : option nat) (l : list R) (r : R) :
  In r (select_where_user user key ascending limit l) ->
  In r l /\ row_user_id r = user.
Proof.
  unfold select_where_user, limit_rows. intros I.
  assert (I' : In r (sort_rows (row_le key ascending)
                       (filter (owned_by user) l)))
    by (destruct limit; [now apply In_firstn in I|exact I]).
  apply In_sort_rows in I'. apply filter_In in I'.
  unfold owned_by in I'. now rewrite String.eqb_eq in I'.
Qed.

Lemma select_limited (user : string) (key : R -> option string)
    (ascending : bool) (n : nat) (l : list R) :
  List.length (select_where_user user key ascending (Some n) l) <= n.
Proof. unfold select_where_user. simpl. apply firstn_le_length. Qed.

Lemma In_delete_where_id (id : string) (l : list R) (r : R) :
  In r (delete_where_id id l) -> row_id r <> id.
Proof.
  unfold delete_where_id. rewrite filter_In. intros [_ N] E.
  unfold has_id in N. rewrite E, String.eqb_refl in N. discriminate.
Qed.

End SelectFacts.

(** *** The rendered controls *)

Lemma strictEq_true (x : option string) (v : string) :
  strictEq x v = true <-> x = Some v.
Proof.
  destruct x as [s|]; simpl; [|split; discriminate].
  rewrite String.eqb_eq. split; congruence.
Qed.

Lemma type_name_injective (type type' : ItemType) :
  type_name type = type_name type' -> type = type'.
Proof. destruct type, type'; simpl; congruence. Qed.

Lemma showsEditor_true (w : World) (type : ItemType) (id : string) :
  showsEditor w type id = true
  <-> editingId w = Some id /\ editingType w = Some (type_name type).
Proof.
  unfold showsEditor. now rewrite andb_true_iff, !strictEq_true.
Qed.

Lemma editorVisible_cursor (w : World) :
  editorVisible w = true ->
  exists id type,
    editingId w = Some id /\ editingType w = Some (type_name type).
Proof.
  unfold editorVisible. intros V. apply existsb_exists in V.
  destruct V as [type [_ V]]. apply existsb_exists in V.
  destruct V as [row [_ V]]. apply showsEditor_true in V.
  now exists (fst row), type.
Qed.

Lemma fetchData_pieces (w : World) : pieces (exec fetchData w) = pieces w.
Proof.
  destruct (fetchData_frame w) as (_ & Fi & Ft & Fv & _).
  unfold pieces. now rewrite Fi, Ft, Fv.
Qed.

Lemma toggleTask_pieces (taskId : string) (completed : bool) (w : World) :
  pieces (exec (toggleTask taskId completed) w) = pieces w.
Proof.
  rewrite toggleTask_world, fetchData_pieces.
  destruct (update_frame "tasks" (Completed (negb completed)) taskId w)
    as (_ & _ & _ & _ & Ei & Et & Ev & _).
  unfold pieces. now rewrite Ei, Et, Ev.
Qed.

Lemma deleteItem_pieces (id : string) (type : ItemType) (w : World) :
  pieces (exec (deleteItem id type) w) = pieces w.
Proof.
  rewrite deleteItem_named. cbv zeta.
  destruct (delete_frame (type_name type) id w)
    as (_ & _ & _ & _ & Ei & Et & Ev & _).
  destruct (fst (delete (type_name type) id w));
    rewrite ?fetchData_pieces, toast_world; unfold pieces; simpl;
    now rewrite Ei, Et, Ev.
Qed.

(** [saveEdit] leaves the cursor as it is or clears all of it. *)
Lemma saveEdit_pieces (w : World) :
  pieces (exec saveEdit w) = pieces w
  \/ pieces (exec saveEdit w) = (None, None, "").
Proof.
  destruct (falsy (editingId w) || falsy (editingType w)) eqn:F.
  { left. unfold exec. now rewrite (saveEdit_return w F). }
  apply orb_false_iff in F as [Fi Ft].
  destruct (editingId w) as [id|] eqn:Ei; [|discriminate].
  destruct (editingType w) as [type|] eqn:Et; [|discriminate].
  simpl in Fi, Ft. apply negb_false_iff in Fi, Ft.
  rewrite (saveEdit_world w id type Ei Et Fi Ft). cbv zeta.
  destruct (fst (saveEdit_request type (editValue w) id w)) eqn:E.
  - left. rewrite toast_world.
    destruct (saveEdit_request_cases type (editValue w) id)
      as [[_ Rq]|[_ [values [Rq _]]]]; rewrite Rq in *.
    + discriminate.
    + destruct (update_frame type values id w)
        as (_ & _ & _ & _ & Gi & Gt & Gv & _).
      unfold pieces. simpl. now rewrite Gi, Gt, Gv.
  - right. now rewrite fetchData_pieces.
Qed.

Lemma filter_one {A : Type} (f : A -> string) (p : A -> bool) (v : string)
    (l : list A) :
  NoDup (map f l) -> (forall x, p x = true -> f x = v) ->
  List.length (filter p l) <= 1.
Proof.
  intros N P. induction l as [|x t IH]; simpl; [lia|].
  inversion N as [|? ? Nx Nt]; subst.
  destruct (p x) eqn:E; [|now apply IH].
  assert (Z : forall l', incl l' t -> filter p l' = []).
  { induction l' as [|y t' IH']; intros I; [reflexivity|]. simpl.
    destruct (p y) eqn:Ey.
    - exfalso. apply Nx. rewrite (P x E), <- (P y Ey).
      apply in_map, I. now left.
    - apply IH'. intros z Iz. apply I. now right. }
  simpl. rewrite (Z t (incl_refl t)). simpl. lia.
Qed.

(** *** Rows after an update *)

Section UpdateFacts.

Context {R : Type} `{Row R}.

(** A row of an updated table that has the id of the update is a row
    the update wrote. *)
Lemma In_update_written (id : string) (f : R -> R) (l : list R) (r : R) :
  (forall x, row_id (f x) = row_id x) ->
  In r (update_where_id id f l) -> row_id r = id ->
  exists r0, In r0 l /\ r = f r0.
Proof.
  intros Fi I E. unfold update_where_id in I. apply in_map_iff in I.
  destruct I as [r0 [Er I]]. exists r0. split; [exact I|].
  destruct (has_id id r0) eqn:Hd; [now symmetry|].
  subst r. unfold has_id in Hd. rewrite E, String.eqb_refl in Hd.
  discriminate.
Qed.

End UpdateFacts.

(** The text a panel shows for each row of a collection. *)
Lemma panel_rows (w : World) (type : ItemType) (row : string * string) :
  In row (panel w type) ->
  match type with
  | tasks_type =>
      exists r, In r (tasks w) /\ row = (task_id r, task_title r)
  | calendar_events_type =>
      exists r, In r (events w) /\ row = (event_id r, event_title r)
  | notes_type =>
      exists r, In r (notes w) /\ row = (note_id r, note_content r)
  | health_mentions_type =>
      exists r, In r (health w) /\ row = (health_id r, health_content r)
  end.
Proof.
  destruct type; simpl; rewrite in_map_iff; intros [r [E I]];
    exists r; split; auto.
Qed.

Lemma nth_error_existsb {A : Type} (p : A -> bool) (l : list A) (n : nat)
    (x : A) :
  nth_error l n = Some x -> p x = true -> existsb p l = true.
Proof.
  intros N P. apply existsb_exists. exists x. split; [|exact P].
  now apply nth_error_In with n.
Qed.

(** The Edit button of a rendered row. *)
Lemma ClickEdit_world (w : World) (type : ItemType) (n : nat)
    (id text : string) :
  nth_error (panel w type) n = Some (id, text) ->
  showsButtons w id = true ->
  let w' := setEditValue text
              (setEditingType (Some (type_name type))
                 (setEditingId (Some id) w)) in
  act w (ClickEdit type n) = w'
  /\ showsEditor w' type id = true
  /\ editorVisible w' = true.
Proof.
  intros N B w'. simpl. rewrite N, B, startEdit_world.
  assert (E : showsEditor w' type id = true)
    by (apply showsEditor_true; split; reflexivity).
  repeat split; [exact E|].
  unfold editorVisible.
  apply existsb_exists. exists type. split; [destruct type; simpl; auto|].
  apply nth_error_existsb with (n := n) (x := (id, text)); [|exact E].
  destruct type; exact N.
Qed.

Lemma saveEdit_request_named (type : ItemType) (value id : string) :
  saveEdit_request (type_name type) value id
  = update (type_name type) (edited_values type value) id.
Proof. now destruct type. Qed.

Lemma store_update_named (type : ItemType) (value id : string) (d : Store) :
  store_update (type_name type) (edited_values type value) id d
  = Some (store_edited type value id d).
Proof. now destruct type. Qed.

(** A save from a cursor on one of the four kinds, when nothing fails. *)
Lemma saveEdit_ok (w : World) (uid : string) (type : ItemType)
    (id : string) :
  editingId w = Some id -> editingType w = Some (type_name type) ->
  id <> "" -> session w = Some uid -> faults w = [] ->
  exec saveEdit w
  = loaded uid (store_edited type (editValue w) id (db w))
      (set_log
         (log w ++ Update (type_name type)
                     (edited_values type (editValue w)) id
                :: AuthGetUser :: reload uid)
         (set_db (store_edited type (editValue w) id (db w))
            (setEditValue ""
               (setEditingType None
                  (setEditingId None
                     (set_toasts
                        (toasts w ++ [mkToast "Updated successfully" false])
                        w)))))).
Proof.
  intros Ei Et Hid S F.
  assert (Ti : truthy id = true) by (destruct id; [congruence|reflexivity]).
  assert (Tt : truthy (type_name type) = true) by now destruct type.
  rewrite (saveEdit_world w id (type_name type) Ei Et Ti Tt). cbv zeta.
  rewrite saveEdit_request_named, update_outcome, F. simpl hd. cbv iota.
  rewrite store_update_named. simpl fst. simpl snd. cbv iota.
  rewrite toast_world, cancelEdit_world.
  rewrite fetchData_ok with (uid := uid);
    [|destruct w; exact S|destruct w; simpl in *; now subst].
  destruct w as [t e n h ei et ev ts d se fs lg]. simpl in *. subst.
  unfold loaded, after_request. simpl. now rewrite <- app_assoc.
Qed.

End InsightsDisplayFacts.

(** ** The insight synchronizer against its specification *)
Module InsightsDisplaySpec.

Import JS InsightsDisplay InsightsDisplayFacts.

(** C1, as the code has it.  Every mutating operation (toggle, save edit,
    delete) writes the store through one request filtered by the id it
    names, never by user: rows of every other id stay as they are, and
    the rows outside the scope of a user, the current one among them,
    stay as they are whenever that id names rows of that user only. *)
Theorem mutation_scoped_by_id
    (m : Mutation) (w : World) (user id : string) :
  target m w = Some id ->
  other_rows id (db (exec (mutate m) w)) = other_rows id (db w)
  /\ (in_scope user id (db w) = true ->
      foreign_rows user (db (exec (mutate m) w)) = foreign_rows user (db w)).
Proof.
  intros T. split.
  - apply (mutate_respects
             (fun d' d => other_rows id d' = other_rows id d) m w id T).
    repeat split.
    + intros table v d d'. apply store_update_other_rows.
    + intros table d d'. apply store_delete_other_rows.
  - apply (mutate_respects
             (fun d' d => in_scope user id d = true ->
                          foreign_rows user d' = foreign_rows user d)
             m w id T).
    repeat split.
    + intros table v d d' E S. now apply store_update_foreign with table v id.
    + intros table d d' E S. now apply store_delete_foreign with table id.
Qed.

Lemma mutation_scoped_by_id_witness :
  let mine := mkTask "t1" "Water plants" false "low" "alice" "2024-05-02" in
  let theirs := mkTask "t2" "Pay rent" false "high" "bob" "2024-05-01" in
  let w := mkWorld [mine] [] [] [] None None "" []
             (mkStore [mine; theirs] [] [] []) (Some "alice") [] [] in
  foreign_rows "alice" (db (exec (mutate (DeleteItem "t1" tasks_type)) w))
  = foreign_rows "alice" (db w).
Proof.
  intros mine theirs w.
  exact (proj2 (mutation_scoped_by_id (DeleteItem "t1" tasks_type) w
                  "alice" "t1" eq_refl) eq_refl).
Defined.

(** C1, as it is stated, fails: signed in as alice, [toggleTask] on the id
    of a task of bob completes that task. *)
Lemma toggle_reaches_foreign_task :
  let theirs := mkTask "t2" "Pay rent" false "high" "bob" "2024-05-01" in
  let w := mkWorld [] [] [] [] None None "" []
             (mkStore [theirs] [] [] []) (Some "alice") [] [] in
  let w' := exec (mutate (ToggleTask "t2" false)) w in
  session w = Some "alice"
  /\ task_user_id theirs <> "alice"
  /\ tasks_table (db w') = [set_task_completed true theirs]
  /\ foreign_rows "alice" (db w') <> foreign_rows "alice" (db w).
Proof. vm_compute. repeat split; discriminate. Qed.

(** C7.  The edit cursor.  [startEdit] lands in [Editing] for what it is
    given, whatever the cursor was, with no request and the store as it
    was.  [saveEdit] on a cursor whose id and kind are not empty strings
    lands in [NoCursor] with an empty buffer when its request does not
    fail, and leaves cursor and store alone, with a destructive toast,
    when the request for one of the four kinds fails.  [cancelEdit] lands
    in [NoCursor] with no request and the store as it was. *)
Theorem edit_cursor_machine (w : World) :
  (forall id kind value,
     let w' := exec (startEdit id kind value) w in
     cursor w' = Editing kind id value
     /\ log w' = log w /\ db w' = db w /\ toasts w' = toasts w)
  /\ (forall kind id buffer,
        cursor w = Editing kind id buffer -> id <> "" -> kind <> "" ->
        let w' := exec saveEdit w in
        (hd false (faults w) = false ->
         cursor w' = NoCursor /\ editValue w' = ""
         /\ toasts w' = toasts w ++ [mkToast "Updated successfully" false])
        /\ (hd false (faults w) = true -> In kind kinds ->
            cursor w' = Editing kind id buffer /\ db w' = db w
            /\ toasts w' = toasts w ++ [mkToast "Failed to update" true]))
  /\ (cursor (exec saveEdit w) = NoCursor
      \/ cursor (exec saveEdit w) = cursor w)
  /\ (let w' := exec cancelEdit w in
      cursor w' = NoCursor /\ editValue w' = ""
      /\ log w' = log w /\ db w' = db w /\ toasts w' = toasts w).
Proof.
  split; [|split; [|split]].
  - intros id kind value. rewrite startEdit_world. repeat split.
  - intros kind id buffer C Hid Hkind.
    unfold cursor in C.
    destruct (editingType w) as [type|] eqn:Et; [|discriminate].
    destruct (editingId w) as [i|] eqn:Ei; [|discriminate].
    inversion C; subst type i. clear C.
    assert (Ti : truthy id = true) by (destruct id; [congruence|reflexivity]).
    assert (Tk : truthy kind = true)
      by (destruct kind; [congruence|reflexivity]).
    cbv zeta. rewrite (saveEdit_world w id kind Ei Et Ti Tk). cbv zeta.
    split.
    + intros F.
      assert (E : fst (saveEdit_request kind (editValue w) id w) = false
                  /\ toasts (snd (saveEdit_request kind (editValue w) id w))
                     = toasts w).
      { destruct (saveEdit_request_cases kind (editValue w) id)
          as [[_ ->]|[_ [values [-> V]]]]; [split; reflexivity|].
        rewrite update_outcome, F.
        destruct (store_update kind values id (db w)) eqn:S;
          [split; reflexivity|]. now destruct (V (db w)). }
      destruct E as [-> Ts].
      match goal with |- context [exec fetchData ?x] =>
        destruct (fetchData_frame x) as (_ & Fi & Ft & Fv & Fts & _) end.
      unfold cursor. rewrite Ft, Fi, Fv, Fts.
      rewrite cancelEdit_world, toast_world. simpl. now rewrite Ts.
    + intros F K.
      destruct (saveEdit_request_cases kind (editValue w) id)
        as [[N _]|[_ [values [-> V]]]]; [contradiction|].
      rewrite update_outcome, F. simpl. unfold cursor. simpl.
      rewrite Et, Ei. repeat split.
  - destruct (falsy (editingId w) || falsy (editingType w)) eqn:F.
    { right. unfold exec. now rewrite (saveEdit_return w F). }
    apply orb_false_iff in F as [Fi Ft].
    destruct (editingId w) as [id|] eqn:Ei; [|discriminate].
    destruct (editingType w) as [kind|] eqn:Et; [|discriminate].
    simpl in Fi, Ft. apply negb_false_iff in Fi, Ft.
    rewrite (saveEdit_world w id kind Ei Et Fi Ft). cbv zeta.
    destruct (saveEdit_request_cases kind (editValue w) id)
      as [[_ ->]|[_ [values [-> _]]]].
    + left. simpl fst. simpl snd. cbv iota.
      match goal with |- context [exec fetchData ?x] =>
        destruct (fetchData_frame x) as (_ & Gi & Gt & _) end.
      unfold cursor. now rewrite Gt, Gi.
    + rewrite update_outcome.
      destruct (if hd false (faults w) then None
                else store_update kind values id (db w)).
      * left. simpl fst. simpl snd. cbv iota.
        match goal with |- context [exec fetchData ?x] =>
          destruct (fetchData_frame x) as (_ & Gi & Gt & _) end.
        unfold cursor. now rewrite Gt, Gi.
      * right. simpl. unfold cursor. simpl. now rewrite Et, Ei.
  - rewrite cancelEdit_world. repeat split.
Qed.

Lemma edit_cursor_machine_witness :
  let note := mkNote "n1" "Slept well" "2024-05-01" "alice" in
  let w := mkWorld [] [] [note] [] (Some "n1") (Some "notes") "Slept badly"
             [] (mkStore [] [] [note] []) (Some "alice") [true] [] in
  cursor (exec saveEdit w) = Editing "notes" "n1" "Slept badly".
Proof.
  intros note w.
  refine (proj1 (proj2 (proj1 (proj2 (edit_cursor_machine w))
                          "notes" "n1" "Slept badly" eq_refl _ _)
                   eq_refl _)).
  - discriminate.
  - discriminate.
  - simpl. auto.
Defined.

(** C8.  [fetchData] with a user issues, after asking for the user,
    exactly the four queries of [reload] for that user, and when none
    fails the four collections are what the store answers; without a
    user it asks for the user and does nothing else. *)
Theorem fetchData_requests (w : World) :
  (forall uid, session w = Some uid ->
     log (exec fetchData w) = log w ++ AuthGetUser :: reload uid
     /\ (faults w = [] ->
         exec fetchData w
         = loaded uid (db w)
             (set_log (log w ++ AuthGetUser :: reload uid) w)))
  /\ (session w = None ->
      exec fetchData w = set_log (log w ++ [AuthGetUser]) w
      /\ toasts (exec fetchData w) = toasts w
      /\ tasks (exec fetchData w) = tasks w
      /\ events (exec fetchData w) = events w
      /\ notes (exec fetchData w) = notes w
      /\ health (exec fetchData w) = health w).
Proof.
  split.
  - intros uid S. split.
    + destruct (fetchData_frame w) as (_ & _ & _ & _ & _ & _ & L).
      now rewrite L, S.
    + intros F. now apply fetchData_ok.
  - intros S. rewrite (fetchData_no_user w S). repeat split.
Qed.

Lemma fetchData_requests_witness :
  let w := mkWorld [] [] [] [] None None "" [] (mkStore [] [] [] [])
             (Some "alice") [] [] in
  log (exec fetchData w)
  = [ AuthGetUser;
      Select "tasks" "alice" "created_at" false None;
      Select "calendar_events" "alice" "event_date" true None;
      Select "notes" "alice" "created_at" false (Some 10);
      Select "health_mentions" "alice" "created_at" false (Some 10) ].
Proof.
  intros w. exact (proj1 (proj1 (fetchData_requests w) "alice" eq_refl)).
Defined.

(** C10.  [saveEdit] with [editingId] or [editingType] null returns the
    world it was given: no request, no toast, collections, cursor and
    buffer as they were. *)
Theorem saveEdit_without_cursor (w : World) :
  editingId w = None \/ editingType w = None ->
  saveEdit w = (tt, w).
Proof.
  intros [E|E]; apply saveEdit_return; rewrite E; simpl;
    [reflexivity | apply orb_true_r].
Qed.

Lemma saveEdit_without_cursor_witness :
  let w := mkWorld [] [] [] [] None None "" [] (mkStore [] [] [] [])
             (Some "alice") [] [] in
  saveEdit w = (tt, w).
Proof.
  intros w. exact (saveEdit_without_cursor w (or_introl eq_refl)).
Defined.



End InsightsDisplaySpec.


(** ** More on the insight synchronizer *)
Module InsightsDisplayExtra.

Import JS InsightsDisplay InsightsDisplayFacts.

(** X15.  [toggleTask] never looks at the answer of its update: it shows
    no toast, leaves the cursor alone and always goes on to reload, so
    its requests are the update, the question for the user and, with a
    user, the four queries; when the update fails the store is as it
    was. *)
Theorem toggleTask_is_silent (taskId : string) (completed : bool)
    (w : World) :
  let w' := exec (toggleTask taskId completed) w in
  toasts w' = toasts w
  /\ cursor w' = cursor w
  /\ log w'
     = log w ++ Update "tasks" (Completed (negb completed)) taskId
         :: AuthGetUser
         :: match session w with Some uid => reload uid | None => [] end
  /\ (hd false (faults w) = true -> db w' = db w).
Proof.
  cbv zeta. rewrite toggleTask_world.
  set (u := update "tasks" (Completed (negb completed)) taskId w).
  destruct (update_frame "tasks" (Completed (negb completed)) taskId w)
    as (_ & _ & _ & _ & Ei & Et & Ev & Ts & Se & _ & Lg).
  fold u in Ei, Et, Ev, Ts, Se, Lg.
  destruct (fetchData_frame (snd u)) as (D & Fi & Ft & Fv & Fts & _ & Fl).
  repeat split.
  - now rewrite Fts.
  - unfold cursor. now rewrite Fi, Ft, Fv, Ei, Et, Ev.
  - rewrite Fl, Se, Lg, <- app_assoc. reflexivity.
  - intros F. rewrite D. unfold u. rewrite update_outcome, F. reflexivity.
Qed.

(** X16.  A delete that fails shows the destructive toast and stops: no
    reload follows, and store, collections and cursor are as they were. *)
Theorem deleteItem_failure (id : string) (type : ItemType) (w : World) :
  hd false (faults w) = true ->
  exec (deleteItem id type) w
  = set_toasts (toasts w ++ [mkToast "Failed to delete" true])
      (after_request (Delete (type_name type) id) w).
Proof.
  intros F. rewrite deleteItem_named, delete_outcome, F. reflexivity.
Qed.

Lemma deleteItem_failure_witness :
  let note := mkNote "n1" "Slept well" "2024-05-01" "alice" in
  let w := mkWorld [] [] [note] [] None None "" []
             (mkStore [] [] [note] []) (Some "alice") [true] [] in
  exec (deleteItem "n1" notes_type) w
  = mkWorld [] [] [note] [] None None "" [mkToast "Failed to delete" true]
      (mkStore [] [] [note] []) (Some "alice") [] [Delete "notes" "n1"].
Proof.
  intros note w. exact (deleteItem_failure "n1" notes_type w eq_refl).
Defined.

(** X17.  A delete that succeeds removes from the table of its kind the
    rows of that id and touches no other table, shows the success toast
    and reloads.  When the reload succeeds too, no row of that id is
    left in the panel of that kind, and the other three panels show what
    a plain reload would have shown. *)
Theorem deleteItem_success (id : string) (type : ItemType) (w : World) :
  hd false (faults w) = false ->
  let w' := exec (deleteItem id type) w in
  store_delete (type_name type) id (db w) = Some (db w')
  /\ toasts w' = toasts w ++ [mkToast "Deleted successfully" false]
  /\ log w'
     = log w ++ Delete (type_name type) id :: AuthGetUser
         :: match session w with Some uid => reload uid | None => [] end
  /\ (forall uid, session w = Some uid -> faults w = [] ->
      ~ In id (map fst (panel w' type))
      /\ forall type', type' <> type ->
           panel w' type' = panel (exec fetchData w) type').
Proof.
  intros F. cbv zeta. rewrite deleteItem_named, delete_outcome, F.
  rewrite store_delete_named. cbv zeta. simpl fst. simpl snd. cbv iota.
  rewrite toast_world.
  match goal with |- context [exec fetchData ?x] =>
    set (w1 := x);
    destruct (fetchData_frame w1) as (D & _ & _ & _ & Ts & _ & Lg) end.
  split; [now rewrite D|]. split; [now rewrite Ts|].
  split; [rewrite Lg; simpl; now rewrite <- app_assoc|].
  intros uid S Fs.
  rewrite (fetchData_ok w1 uid) by (unfold w1; simpl; rewrite ?Fs; auto).
  rewrite (fetchData_ok w uid S Fs).
  split.
  - intros I. apply in_map_iff in I. destruct I as [[i t] [E I]].
    simpl in E. subst i.
    destruct type; unfold panel, loaded in I;
      cbn [tasks events notes health setTasks setEvents setNotes setHealth]
        in I;
      apply in_map_iff in I; destruct I as [r [E I]]; inversion E; subst;
      apply select_sound in I; destruct I as [I _];
      now apply In_delete_where_id in I.
  - intros type' N. destruct type, type'; try congruence; reflexivity.
Qed.

Lemma deleteItem_success_witness :
  let note := mkNote "n1" "Slept well" "2024-05-01" "alice" in
  let w := mkWorld [] [] [note] [] None None "" []
             (mkStore [] [] [note] []) (Some "alice") [] [] in
  ~ In "n1" (map fst (panel (exec (deleteItem "n1" notes_type) w) notes_type)).
Proof.
  intros note w.
  exact (proj1 (proj2 (proj2 (proj2
           (deleteItem_success "n1" notes_type w eq_refl)))
           "alice" eq_refl eq_refl)).
Defined.

(** X18.  [saveEdit] writes the buffer to the one text field of the kind
    the cursor names: the title of the tasks, or of the calendar events,
    of that id, the content of the notes, or of the health mentions, of
    that id.  Nothing else of the store changes. *)
Theorem saveEdit_writes_field (w : World) (id : string) :
  editingId w = Some id -> id <> "" -> hd false (faults w) = false ->
  let w' := exec saveEdit w in
  let buffer := editValue w in
  (editingType w = Some "tasks" ->
   db w' = set_tasks_table
             (update_where_id id (set_task_title buffer)
                (tasks_table (db w))) (db w))
  /\ (editingType w = Some "calendar_events" ->
      db w' = set_calendar_events_table
                (update_where_id id (set_event_title buffer)
                   (calendar_events_table (db w))) (db w))
  /\ (editingType w = Some "notes" ->
      db w' = set_notes_table
                (update_where_id id (set_note_content buffer)
                   (notes_table (db w))) (db w))
  /\ (editingType w = Some "health_mentions" ->
      db w' = set_health_mentions_table
                (update_where_id id (set_health_content buffer)
                   (health_mentions_table (db w))) (db w)).
Proof.
  intros Ei Hid F. cbv zeta.
  assert (Ti : truthy id = true) by (destruct id; [congruence|reflexivity]).
  repeat split; intros Et;
    rewrite (saveEdit_world w id _ Ei Et Ti eq_refl); cbv zeta;
    unfold saveEdit_request; simpl; rewrite update_outcome, F; simpl;
    match goal with |- db (exec fetchData ?x) = _ =>
      destruct (fetchData_frame x) as (-> & _) end;
    reflexivity.
Qed.

Lemma saveEdit_writes_field_witness :
  let note := mkNote "n1" "Slept well" "2024-05-01" "alice" in
  let w := mkWorld [] [] [note] [] (Some "n1") (Some "notes") "Slept badly"
             [] (mkStore [] [] [note] []) (Some "alice") [] [] in
  db (exec saveEdit w)
  = mkStore [] [] [mkNote "n1" "Slept badly" "2024-05-01" "alice"] [].
Proof.
  intros note w.
  refine (proj1 (proj2 (proj2 (saveEdit_writes_field w "n1" eq_refl _
                                 eq_refl))) eq_refl).
  discriminate.
Defined.

(** X19.  [saveEdit] with an [editingType] that is none of the four
    table names sends no update, and still takes the success path: the
    store is as it was, "Updated successfully" is shown, the cursor is
    cleared and a reload follows. *)
Theorem saveEdit_unknown_type (w : World) (id type : string) :
  editingId w = Some id -> editingType w = Some type ->
  id <> "" -> type <> "" -> ~ In type kinds ->
  let w' := exec saveEdit w in
  db w' = db w
  /\ log w'
     = log w ++ AuthGetUser
         :: match session w with Some uid => reload uid | None => [] end
  /\ toasts w' = toasts w ++ [mkToast "Updated successfully" false]
  /\ cursor w' = NoCursor /\ editValue w' = "".
Proof.
  intros Ei Et Hid Hty N. cbv zeta.
  assert (Ti : truthy id = true) by (destruct id; [congruence|reflexivity]).
  assert (Tt : truthy type = true)
    by (destruct type; [congruence|reflexivity]).
  rewrite (saveEdit_world w id type Ei Et Ti Tt). cbv zeta.
  destruct (saveEdit_request_cases type (editValue w) id)
    as [[_ ->]|[K _]]; [|contradiction].
  simpl fst. simpl snd. cbv iota.
  match goal with |- context [exec fetchData ?x] =>
    destruct (fetchData_frame x) as (D & Fi & Ft & Fv & Ts & _ & Lg) end.
  unfold cursor. rewrite D, Lg, Ts, Ft, Fi, Fv. repeat split.
Qed.

Lemma saveEdit_unknown_type_witness :
  let w := mkWorld [] [] [] [] (Some "x1") (Some "reminders") "Buy milk" []
             (mkStore [] [] [] []) None [] [] in
  log (exec saveEdit w) = [AuthGetUser].
Proof.
  intros w.
  refine (proj1 (proj2 (saveEdit_unknown_type w "x1" "reminders" eq_refl
                          eq_refl _ _ _))); try discriminate.
  simpl. intuition discriminate.
Defined.

(** X20.  A save that fails shows the destructive toast and stops: no
    reload follows, and store, collections, cursor and buffer are as
    they were.  So saving again sends the same update, and when that one
    does not fail the store takes it and the cursor is cleared. *)
Theorem saveEdit_retry (w : World) (id type : string) (rest : list bool) :
  editingId w = Some id -> editingType w = Some type ->
  id <> "" -> In type kinds -> faults w = true :: rest ->
  exists values,
    exec saveEdit w
    = set_toasts (toasts w ++ [mkToast "Failed to update" true])
        (after_request (Update type values id) w)
    /\ (hd false rest = false ->
        let w' := exec saveEdit (exec saveEdit w) in
        store_update type values id (db w) = Some (db w')
        /\ cursor w' = NoCursor
        /\ toasts w'
           = toasts w ++ [mkToast "Failed to update" true;
                          mkToast "Updated successfully" false]).
Proof.
  intros Ei Et Hid K F.
  assert (Ti : truthy id = true) by (destruct id; [congruence|reflexivity]).
  assert (Tt : truthy type = true).
  { unfold kinds in K. simpl in K.
    destruct K as [<-|[<-|[<-|[<-|[]]]]]; reflexivity. }
  destruct (saveEdit_request_cases type (editValue w) id)
    as [[N _]|[_ [values [Rq V]]]]; [contradiction|].
  exists values.
  assert (E1 : exec saveEdit w
               = set_toasts (toasts w ++ [mkToast "Failed to update" true])
                   (after_request (Update type values id) w)).
  { rewrite (saveEdit_world w id type Ei Et Ti Tt). cbv zeta.
    rewrite Rq, update_outcome, F. reflexivity. }
  split; [exact E1|]. intros F2. cbv zeta. rewrite E1.
  match goal with |- context [exec saveEdit ?x] => set (w1 := x) end.
  assert (Ei1 : editingId w1 = Some id) by exact Ei.
  assert (Et1 : editingType w1 = Some type) by exact Et.
  rewrite (saveEdit_world w1 id type Ei1 Et1 Ti Tt). cbv zeta.
  change (editValue w1) with (editValue w).
  rewrite Rq, update_outcome.
  assert (F1 : hd false (faults w1) = false)
    by (unfold w1, after_request; simpl; now rewrite F).
  rewrite F1. change (db w1) with (db w).
  destruct (store_update type values id (db w)) as [d'|] eqn:S;
    [|now destruct (V (db w))].
  simpl fst. simpl snd. cbv iota.
  match goal with |- context [exec fetchData ?x] =>
    destruct (fetchData_frame x) as (D & Fi & Ft & _ & Ts & _) end.
  unfold cursor. rewrite D, Ts, Ft, Fi. repeat split.
  unfold w1. simpl. now rewrite <- app_assoc.
Qed.

Lemma saveEdit_retry_witness :
  let note := mkNote "n1" "Slept well" "2024-05-01" "alice" in
  let w := mkWorld [] [] [note] [] (Some "n1") (Some "notes") "Slept badly"
             [] (mkStore [] [] [note] []) (Some "alice") [true] [] in
  exists values,
    exec saveEdit w
    = set_toasts (toasts w ++ [mkToast "Failed to update" true])
        (after_request (Update "notes" values "n1") w)
    /\ (hd false [] = false ->
        let w' := exec saveEdit (exec saveEdit w) in
        store_update "notes" values "n1" (db w) = Some (db w')
        /\ cursor w' = NoCursor
        /\ toasts w'
           = toasts w ++ [mkToast "Failed to update" true;
                          mkToast "Updated successfully" false]).
Proof.
  intros note w.
  refine (saveEdit_retry w "n1" "notes" [] eq_refl eq_refl _ _ eq_refl).
  - discriminate.
  - simpl. auto.
Defined.

(** X21.  The four queries of a reload fail or succeed one by one: a
    collection whose query failed stays as it was, and each of the
    others becomes what the store answers, whatever happened to the
    rest. *)
Theorem fetchData_partial (w : World) (uid : string) :
  session w = Some uid ->
  let w' := exec fetchData w in
  let failed n := nth n (faults w) false in
  tasks w'
  = (if failed 0 then tasks w
     else select_where_user uid (fun r => Some (task_created_at r)) false
            None (tasks_table (db w)))
  /\ events w'
     = (if failed 1 then events w
        else select_where_user uid event_date true None
               (calendar_events_table (db w)))
  /\ notes w'
     = (if failed 2 then notes w
        else select_where_user uid (fun r => Some (note_created_at r)) false
               (Some 10) (notes_table (db w)))
  /\ health w'
     = (if failed 3 then health w
        else select_where_user uid (fun r => Some (health_created_at r))
               false (Some 10) (health_mentions_table (db w))).
Proof.
  destruct w as [t e n h ei et ev ts d se fs lg]. simpl. intros ->.
  destruct fs as [|[] [|[] [|[] [|[] fs]]]]; repeat split.
Qed.

Lemma fetchData_partial_witness :
  let mine := mkTask "t1" "Water plants" false "low" "alice" "2024-05-02" in
  let stale := mkNote "n0" "Old note" "2024-01-01" "alice" in
  let w := mkWorld [] [] [stale] [] None None "" []
             (mkStore [mine] [] [] []) (Some "alice")
             [false; false; true] [] in
  tasks (exec fetchData w) = [mine] /\ notes (exec fetchData w) = [stale].
Proof.
  intros mine stale w.
  destruct (fetchData_partial w "alice" eq_refl) as (T & _ & N & _).
  split; [exact T | exact N].
Defined.

(** X22.  Reloading is idempotent: with a user and no failure, a second
    reload right after the first changes nothing but the log. *)
Theorem fetchData_idempotent (w : World) (uid : string) :
  session w = Some uid -> faults w = [] ->
  set_log [] (exec fetchData (exec fetchData w))
  = set_log [] (exec fetchData w).
Proof.
  intros S F. rewrite (fetchData_ok w uid S F).
  rewrite fetchData_ok with (uid := uid);
    [reflexivity | exact S | exact F].
Qed.

Lemma fetchData_idempotent_witness :
  let mine := mkTask "t1" "Water plants" false "low" "alice" "2024-05-02" in
  let w := mkWorld [] [] [] [] None None "" []
             (mkStore [mine] [] [] []) (Some "alice") [] [] in
  set_log [] (exec fetchData (exec fetchData w))
  = set_log [] (exec fetchData w).
Proof.
  intros mine w. exact (fetchData_idempotent w "alice" eq_refl eq_refl).
Defined.

(** X23.  After a reload without failure every row shown is a row of the
    store that belongs to the user; every task and every calendar event
    of the user is shown; and at most ten notes and ten health mentions
    are. *)
Theorem loaded_rows (w : World) (uid : string) :
  session w = Some uid -> faults w = [] ->
  let w' := exec fetchData w in
  (forall r, In r (tasks w')
             <-> In r (tasks_table (db w)) /\ task_user_id r = uid)
  /\ (forall r, In r (events w')
                <-> In r (calendar_events_table (db w))
                    /\ event_user_id r = uid)
  /\ (forall r, In r (notes w') ->
                In r (notes_table (db w)) /\ note_user_id r = uid)
  /\ (forall r, In r (health w') ->
                In r (health_mentions_table (db w)) /\ health_user_id r = uid)
  /\ List.length (notes w') <= 10
  /\ List.length (health w') <= 10.
Proof.
  intros S F. cbv zeta. rewrite (fetchData_ok w uid S F).
  unfold loaded.
  cbn [tasks events notes health setTasks setEvents setNotes setHealth].
  split; [|split; [|split; [|split; [|split]]]].
  - intros r. exact (In_select_where_user (R := Task) uid _ false _ r).
  - intros r.
    exact (In_select_where_user (R := CalendarEvent) uid _ true _ r).
  - intros r. exact (select_sound (R := Note) uid _ false (Some 10) _ r).
  - intros r.
    exact (select_sound (R := HealthMention) uid _ false (Some 10) _ r).
  - apply select_limited.
  - apply select_limited.
Qed.

Lemma loaded_rows_witness :
  let mine := mkTask "t1" "Water plants" false "low" "alice" "2024-05-02" in
  let theirs := mkTask "t2" "Pay rent" false "high" "bob" "2024-05-01" in
  let w := mkWorld [] [] [] [] None None "" []
             (mkStore [mine; theirs] [] [] []) (Some "alice") [] [] in
  List.length (notes (exec fetchData w)) <= 10.
Proof.
  intros mine theirs w.
  exact (proj1 (proj2 (proj2 (proj2 (proj2
           (loaded_rows w "alice" eq_refl eq_refl)))))).
Defined.

(** X24.  [getPriorityColor]: only "high" gets the accent classes, only
    "medium" the primary ones, and every other priority, "low" or not,
    the muted ones. *)
Theorem priority_colors (priority : string) :
  (getPriorityColor priority = "bg-accent text-accent-foreground"
   <-> priority = "high")
  /\ (getPriorityColor priority = "bg-primary/20 text-primary"
      <-> priority = "medium")
  /\ (getPriorityColor priority = "bg-muted text-muted-foreground"
      <-> priority <> "high" /\ priority <> "medium").
Proof.
  unfold getPriorityColor.
  destruct (String.eqb_spec priority "high") as [->|H];
    [repeat split; try discriminate; intuition congruence|].
  destruct (String.eqb_spec priority "medium") as [->|M];
    [repeat split; try discriminate; intuition congruence|].
  destruct (String.eqb_spec priority "low") as [->|L];
    repeat split; try discriminate; intuition congruence.
Qed.

(** X25.  At most one record is open for editing: two rows that show an
    editor are of the same kind and id, so a panel whose rows have
    distinct ids shows at most one.  The row that shows the editor shows
    no Edit or Delete button, and neither does a row of another kind
    that happens to have the same id, which shows no editor either. *)
Theorem one_editor (w : World) :
  (forall type id type' id',
     showsEditor w type id = true -> showsEditor w type' id' = true ->
     type = type' /\ id = id')
  /\ (forall type,
        NoDup (map fst (panel w type)) ->
        List.length
          (filter (fun row => showsEditor w type (fst row)) (panel w type))
        <= 1)
  /\ (forall type id,
        showsEditor w type id = true ->
        showsButtons w id = false
        /\ forall type', type' <> type ->
             showsEditor w type' id = false).
Proof.
  split; [|split].
  - intros type id type' id' E E'.
    apply showsEditor_true in E, E'. destruct E as [Ei Et], E' as [Ei' Et'].
    split; [apply type_name_injective|]; congruence.
  - intros type N.
    destruct (editingId w) as [id|] eqn:Ei.
    + apply filter_one with (f := fst) (v := id); [exact N|].
      intros row E. apply showsEditor_true in E. destruct E as [E _].
      congruence.
    + assert (Z : forall l : list (string * string),
                filter (fun row => showsEditor w type (fst row)) l = []).
      { induction l as [|row t IH]; [reflexivity|]. simpl.
        unfold showsEditor at 1. rewrite Ei. simpl. exact IH. }
      rewrite Z. simpl. lia.
  - intros type id E. apply showsEditor_true in E. destruct E as [Ei Et].
    split.
    + unfold showsButtons. rewrite Ei. simpl. now rewrite String.eqb_refl.
    + intros type' N. destruct (showsEditor w type' id) eqn:E'; auto.
      apply showsEditor_true in E'. destruct E' as [_ Et'].
      destruct N. apply type_name_injective. congruence.
Qed.

(** X26.  Through the rendered controls the three pieces of the cursor
    move together: in every state the component can get to, either
    [editingId] and [editingType] are both null and the buffer is empty,
    or both are set and the type is one of the four table names. *)
Theorem cursor_stays_consistent (w : World) :
  attainable w -> cursor_consistent w.
Proof.
  induction 1 as [d user fs|w a _ IH]; [left; repeat split|].
  assert (Keep : forall w', pieces w' = pieces w -> cursor_consistent w').
  { intros w' E. unfold pieces in E. inversion E as [[Ei Et Ev]].
    unfold cursor_consistent. now rewrite Ei, Et, Ev. }
  destruct a as [|n|type n|type n|value| | |d user fs]; simpl.
  - apply Keep, fetchData_pieces.
  - destruct (nth_error (tasks w) n); [|exact IH].
    apply Keep, toggleTask_pieces.
  - destruct (nth_error (panel w type) n) as [[id text]|]; [|exact IH].
    destruct (showsButtons w id); [|exact IH].
    right. exists id, type. split; reflexivity.
  - destruct (nth_error (panel w type) n) as [[id text]|]; [|exact IH].
    destruct (showsButtons w id); [|exact IH].
    apply Keep, deleteItem_pieces.
  - destruct (editorVisible w) eqn:V; [|exact IH].
    right. exact (editorVisible_cursor w V).
  - destruct (editorVisible w); [|exact IH].
    destruct (saveEdit_pieces w) as [E|E]; [now apply Keep|].
    left. unfold pieces in E. inversion E as [[Ei Et Ev]]. repeat split.
  - destruct (editorVisible w); [|exact IH]. left. repeat split.
  - exact IH.
Qed.

Lemma cursor_stays_consistent_witness :
  let note := mkNote "n1" "Slept well" "2024-05-01" "alice" in
  let w0 := mounted (mkStore [] [] [note] []) (Some "alice") [] in
  cursor_consistent
    (act (act (act (act w0 Refresh) (ClickEdit notes_type 0))
            (TypeInEditor "Slept badly")) ClickSave).
Proof.
  intros note w0.
  apply cursor_stays_consistent.
  repeat apply attainable_act. apply attainable_mounted.
Defined.

(** X27.  The Edit button of a row opens the editor on that row, seeded
    with the text the row shows: the cursor is on that kind and id with
    that text as buffer, the row shows its editor and no longer its
    buttons, and no request is sent nor the store touched. *)
Theorem edit_opens_editor (w : World) (type : ItemType) (n : nat)
    (id text : string) :
  nth_error (panel w type) n = Some (id, text) ->
  showsButtons w id = true ->
  let w' := act w (ClickEdit type n) in
  cursor w' = Editing (type_name type) id text
  /\ showsEditor w' type id = true
  /\ showsButtons w' id = false
  /\ editorVisible w' = true
  /\ panel w' type = panel w type
  /\ log w' = log w /\ db w' = db w /\ toasts w' = toasts w.
Proof.
  intros N B. cbv zeta.
  destruct (ClickEdit_world w type n id text N B) as (-> & E & V).
  repeat split; try assumption.
  unfold showsButtons. simpl. now rewrite String.eqb_refl.
Qed.

Lemma edit_opens_editor_witness :
  let note := mkNote "n1" "Slept well" "2024-05-01" "alice" in
  let w := mkWorld [] [] [note] [] None None "" []
             (mkStore [] [] [note] []) (Some "alice") [] [] in
  cursor (act w (ClickEdit notes_type 0)) = Editing "notes" "n1" "Slept well".
Proof.
  intros note w.
  exact (proj1 (edit_opens_editor w notes_type 0 "n1" "Slept well"
                  eq_refl eq_refl)).
Defined.

(** X28.  Edit, type, save, end to end: with a user signed in and no
    request failing, after the Edit button of a row with a non-empty id,
    typing a text and Save, the cursor is cleared, the success toast is
    shown, and every row of that id in the reloaded panel shows the
    typed text. *)
Theorem edit_type_save (w : World) (uid : string) (type : ItemType)
    (n : nat) (id text typed : string) :
  session w = Some uid -> faults w = [] ->
  nth_error (panel w type) n = Some (id, text) ->
  showsButtons w id = true -> id <> "" ->
  let w' :=
    act (act (act w (ClickEdit type n)) (TypeInEditor typed)) ClickSave in
  cursor w' = NoCursor
  /\ toasts w' = toasts w ++ [mkToast "Updated successfully" false]
  /\ forall row, In row (panel w' type) -> fst row = id -> snd row = typed.
Proof.
  intros S F N B Hid. cbv zeta.
  destruct (ClickEdit_world w type n id text N B) as (E1 & _ & V1).
  rewrite E1.
  set (w1 := setEditValue text
               (setEditingType (Some (type_name type))
                  (setEditingId (Some id) w))) in *.
  set (w2 := setEditValue typed w1).
  assert (A2 : act w1 (TypeInEditor typed) = w2) by (simpl; now rewrite V1).
  assert (V2 : editorVisible w2 = true) by exact V1.
  assert (A3 : act w2 ClickSave = exec saveEdit w2)
    by (simpl; now rewrite V2).
  rewrite A2, A3.
  rewrite (saveEdit_ok w2 uid type id eq_refl eq_refl Hid S F).
  split; [reflexivity|]. split; [reflexivity|].
  intros row I E. apply panel_rows in I.
  destruct type; destruct I as [r [I ->]]; unfold loaded in I;
    cbn [tasks events notes health setTasks setEvents setNotes setHealth]
      in I;
    apply select_sound in I; destruct I as [I _];
    apply In_update_written in I;
    try (intros x; reflexivity); try exact E;
    destruct I as [r0 [_ ->]]; reflexivity.
Qed.

Lemma edit_type_save_witness :
  let note := mkNote "n1" "Slept well" "2024-05-01" "alice" in
  let w := mkWorld [] [] [note] [] None None "" []
             (mkStore [] [] [note] []) (Some "alice") [] [] in
  let w' :=
    act (act (act w (ClickEdit notes_type 0)) (TypeInEditor "Slept badly"))
      ClickSave in
  cursor w' = NoCursor
  /\ toasts w' = [mkToast "Updated successfully" false]
  /\ forall row, In row (panel w' notes_type) -> fst row = "n1" ->
       snd row = "Slept badly".
Proof.
  intros note w.
  refine (edit_type_save w "alice" notes_type 0 "n1" "Slept well"
            "Slept badly" eq_refl eq_refl eq_refl eq_refl _).
  discriminate.
Defined.

End InsightsDisplayExtra.
